(** * SD card cloner: device catalog, classifier, executor and main loop

    Shallow embedding of [sdcc_cloner.py] (class [SDCardCloner], the
    production variant) and of [cloner_mock.py] (class [HeadlessCloner],
    the mock variant).  The pure functions of the two classes are in the
    modules [Prod] and [Mock]; the functions that run processes, drive the
    LEDs and read the button are in [ProdExec] and [MockExec], written in
    a monad that threads the state of the pins and the history of the
    calls, and raises exceptions.

    Conventions.
    - A device dictionary is the record [dev]; its keys keep their names.
    - [size_gb] is a Python float that holds a value rounded to two
      decimals.  It is represented by its number of hundredths, an integer:
      [round(x, 2)] returns the double nearest to the decimal it rounds to,
      and on such doubles [<], [>] and the order used by [sorted] agree
      with the order of the hundredths.  The quotient that is rounded is
      computed without error for every sector count below 2^53.
    - Console and log output have no influence on control flow and are
      left out of the history: the appends of [log()] of the production
      variant, which catches its own errors, are not recorded, and the
      properties of that variant are stated on the other events.  The
      writes to the log file of the mock variant, which can raise, are
      recorded.
    - The [blockdev] and [blkid] processes of the mock variant, of which
      only the output is used and whose failure is caught, are queries of
      the host; they are not recorded in the history either, and the
      properties of the processes of that variant leave them aside.
    - [time.sleep] is left out as well. *)

From stdpp Require Import base list strings gmap sorting.
From Stdlib Require Import ZArith Lia Ascii.

Local Open Scope string_scope.
Local Open Scope Z_scope.

(** ** Device dictionaries *)

Record dev := Dev {
  device : string;
  name : string;
  size_gb : Z;
  model : string;
  serial : option string
}.

(** ** [sorted(devices, key=lambda x: x['size_gb'])]

    Python's [sorted] is stable.  The stable sort of a list is unique, so a
    stable insertion sort computes the same list. *)

Fixpoint insert_by_size (x : dev) (l : list dev) : list dev :=
  match l with
  | [] => [x]
  | y :: l' =>
      if size_gb x <=? size_gb y then x :: y :: l'
      else y :: insert_by_size x l'
  end.

Definition sorted (devices : list dev) : list dev :=
  foldr insert_by_size [] devices.

(** [l[0]] and [l[-1]] of a list; [None] stands for [IndexError]. *)
Definition first {A} (l : list A) : option A := head l.
Definition final {A} (l : list A) : option A := last l.

(** Python truthiness of a string or [None]. *)
Definition truthy (s : option string) : bool :=
  match s with
  | None => false
  | Some s => negb (String.eqb s "")
  end.

(** ** Rounding to two decimals

    [round_half_even n d] is the integer nearest to [n / d], ties going to
    the even one, which is what [round(x, 2)] does on [x = n / (100 * d)]. *)

Definition round_half_even (n d : Z) : Z :=
  let f := n / d in
  let r := n mod d in
  if 2 * r <? d then f
  else if d <? 2 * r then f + 1
  else if Z.even f then f else f + 1.

(** [round((size * 512) / (1024**3), 2)], in hundredths, for a sector count
    from 0 to below 2^53: there the true division is exact (the divisor is
    a power of two and the count fits the mantissa of a double), and
    [round] rounds the exact quotient.  For larger counts the float
    quotient is itself rounded before [round] sees it, which this
    definition does not follow; the properties of the size are stated
    for counts in that range (see [sectors_in_range]). *)
Definition size_gb_of_sectors (size : Z) : Z :=
  round_half_even (size * 512 * 100) (1024 ^ 3).

(** The size as section 4.1 of the specification words it: bytes divided
    by 10^9 (decimal gigabytes), rounded to two decimals. *)
Definition size_gb_decimal (size : Z) : Z :=
  round_half_even (size * 512 * 100) (10 ^ 9).

(** ** The file system seen by [detect_devices] *)

(** One entry of [/sys/block].  [size_text] is [None] when reading or
    parsing [/sys/block/<name>/size] raises.  [model_text] is [None] when
    [device/model] does not exist, [Some None] when reading it raises, and
    the stripped text otherwise. *)
Record block_entry := BlockEntry {
  be_name : string;
  be_is_dir : bool;
  size_text : option Z;
  model_text : option (option string)
}.

(** [by_id] lists [/dev/disk/by-id]: the name of each link and the path
    [Path.resolve] returns for it. *)
Record sysfs := Sysfs {
  sys_block : list block_entry;
  by_id : list (string * string)
}.

(** Every sector count that can be read is from 0 to below 2^53 (devices
    below 4 EiB). *)
Definition sectors_in_range (fs : sysfs) : Prop :=
  Forall (λ e, ∀ size, size_text e = Some size → 0 ≤ size < 2 ^ 53)
         (sys_block fs).

Definition startswith (s p : string) : bool := String.prefix p s.

Definition endswith (s p : string) : bool :=
  let n := String.length s in
  let k := String.length p in
  if (k <=? n)%nat
  then String.eqb (String.substring (n - k)%nat k s) p
  else false.

(** [Path(dir).glob('*' + name)] *)
Definition glob_star (dir : list (string * string)) (nm : string)
  : list (string * string) :=
  filter (λ a, endswith (fst a) nm = true) dir.

Module Prod.

(** The body of the [for] loop of [detect_devices]; [None] when the entry
    is skipped. *)
Definition detect_entry (fs : sysfs) (e : block_entry) : option dev :=
  let nm := be_name e in
  if negb (be_is_dir e) || startswith nm "loop" || startswith nm "ram"
  then None
  else if startswith nm "mmcblk0" then None
  else
    match size_text e with
    | None => None
    | Some size =>
        match model_text e with
        | Some None => None
        | m =>
            let by_id_links := glob_star (by_id fs) nm in
            let device_path :=
              match by_id_links with
              | a :: _ => snd a
              | [] => "/dev/" +:+ nm
              end in
            Some {| device := device_path;
                    name := nm;
                    size_gb := size_gb_of_sectors size;
                    model := match m with
                             | Some (Some s) => s
                             | _ => "Unknown"
                             end;
                    serial := None |}
        end
    end.

Definition detect_devices (fs : sysfs) : list dev :=
  omap (detect_entry fs) (sys_block fs).

(** [None] stands for [(None, None)]. *)
Definition identify_source_dest (devices : list dev) : option (dev * dev) :=
  if (length devices <? 2)%nat then None
  else
    let sorted_devices := sorted devices in
    match first sorted_devices, final sorted_devices with
    | Some source, Some dest => Some (source, dest)
    | _, _ => None
    end.

Definition validate_clone (source dest : dev) : bool :=
  if size_gb source >? size_gb dest then false else true.

End Prod.

Module Mock.

(** What [blockdev --getsize64] gives for a device: the value of
    [int(result.stdout.strip())], or [None] when the [try] block
    raises (the process cannot be run, the output is empty or is not a
    number). *)
Definition blockdev := string → option Z.

Definition get_device_size (bd : blockdev) (d : string) : Z :=
  match bd d with
  | Some n => n
  | None => 0
  end.

(** [None] stands for [(None, None)]. *)
Definition identify_source_dest (devices : list dev)
  : option (string * string) :=
  if (length devices <? 2)%nat then None
  else
    let sorted_devs := sorted devices in
    match first sorted_devs, final sorted_devs with
    | Some s, Some d => Some (device s, device d)
    | _, _ => None
    end.

Definition validate_clone (bd : blockdev) (source dest : option string)
  : bool * string :=
  if negb (truthy source) || negb (truthy dest) then (false, "Missing devices")
  else
    let source_size := get_device_size bd (default "" source) in
    let dest_size := get_device_size bd (default "" dest) in
    if dest_size <? source_size then (false, "Destination too small")
    else (true, "OK").

End Mock.

(** ** The host: processes, OS calls and GPIO *)

(** What the program asks of the operating system.  [Run] is a
    [subprocess.run] or a [subprocess.Popen] followed by [wait]. *)
Inductive call :=
  | Run (argv : list string)
  | Makedirs (path : string)
  | Rmdir (path : string)
  | Append (path : string)
  | Sync.

(** The outcome of a call: an exit status ([0] for an OS call that
    returns), or [Fails] when the call itself raises [OSError]. *)
Inductive outcome :=
  | Exit (rc : Z)
  | Fails.

Inductive exn :=
  | CalledProcessError (rc : Z) (argv : list string)
  | OSError (c : call).

(** What is observable of a run: the calls with their outcomes and the
    GPIO writes that take effect. *)
Inductive event :=
  | Called (c : call) (o : outcome)
  | Output (pin : Z) (v : bool).

(** The fake executor.  [answer] gives the outcome of every call, knowing
    the events so far.  The other fields answer the queries of the
    program: [ismount] is [os.path.ismount]; [dev_glob b] lists the names
    of the entries of [/dev] that match [b[0-9]*]; [blkid d] is the
    stripped output of [blkid] for [d], or [None] when the [try] block of
    [get_filesystem_type] raises; [blockdev_getsize64] is as described at
    [Mock.blockdev]. *)
Record host := Host {
  answer : list event → call → outcome;
  ismount : string → bool;
  dev_glob : string → list string;
  blkid : string → option string;
  blockdev_getsize64 : string → option Z
}.

Record world := World {
  pins : gmap Z bool;
  history : list event
}.

Inductive res (A : Type) :=
  | Ok (a : A)
  | Raise (e : exn).
Arguments Ok {A} a.
Arguments Raise {A} e.

Definition exec (A : Type) : Type := host → world → res A * world.

#[export] Instance exec_ret : MRet exec := λ A a _ w, (Ok a, w).

#[export] Instance exec_bind : MBind exec := λ A B f m h w,
  match m h w with
  | (Ok a, w') => f a h w'
  | (Raise e, w') => (Raise e, w')
  end.

Definition throw {A} (e : exn) : exec A := λ _ w, (Raise e, w).

(** [try: m  except Exception as e: handler e] *)
Definition try_except {A} (m : exec A) (handler : exn → exec A) : exec A :=
  λ h w,
    match m h w with
    | (Ok a, w') => (Ok a, w')
    | (Raise e, w') => handler e h w'
    end.

(** [try: m  finally: fin] *)
Definition try_finally {A} (m : exec A) (fin : exec unit) : exec A :=
  λ h w,
    match m h w with
    | (r, w') =>
        match fin h w' with
        | (Ok _, w'') => (r, w'')
        | (Raise e, w'') => (Raise e, w'')
        end
    end.

Definition ask {A} (q : host → A) : exec A := λ h w, (Ok (q h), w).

Definition perform (c : call) : exec outcome := λ h w,
  let o := answer h (history w) c in
  (Ok o, World (pins w) (history w ++ [Called c o])).

(** An OS call that returns nothing, such as [os.makedirs]. *)
Definition os_call (c : call) : exec unit :=
  o ← perform c;
  match o with
  | Exit _ => mret ()
  | Fails => throw (OSError c)
  end.

(** [Popen(argv)], reading its output to the end, and [wait()]: the exit
    status. *)
Definition popen_wait (argv : list string) : exec Z :=
  o ← perform (Run argv);
  match o with
  | Exit rc => mret rc
  | Fails => throw (OSError (Run argv))
  end.

(** [subprocess.run(argv, check=True)] *)
Definition run_checked (argv : list string) : exec unit :=
  rc ← popen_wait argv;
  if bool_decide (rc = 0) then mret ()
  else throw (CalledProcessError rc argv).

(** [for _ in range(n): m] *)
Fixpoint repeat_exec (n : nat) (m : exec unit) : exec unit :=
  match n with
  | O => mret ()
  | S n' => m;; repeat_exec n' m
  end.

(** [for x in l: body x] *)
Fixpoint for_each {A} (l : list A) (body : A → exec unit) : exec unit :=
  match l with
  | [] => mret ()
  | x :: l' => body x;; for_each l' body
  end.

(** The mount points that are mounted after the events [hist], starting
    from none: a [mount] that exits with 0 adds its mount point, a [umount]
    that exits with 0 removes it. *)

Definition mount_effect (m : list string) (e : event) : list string :=
  match e with
  | Called (Run [s; c; _; mp]) (Exit 0) =>
      if bool_decide (s = "sudo" ∧ c = "mount") then mp :: m else m
  | Called (Run [s; c; mp]) (Exit 0) =>
      if bool_decide (s = "sudo" ∧ c = "umount")
      then filter (λ x, x ≠ mp) m else m
  | _ => m
  end.

Definition mounted (hist : list event) : list string :=
  foldl mount_effect [] hist.

(** The number of [mount] and of [umount] calls that exited with 0. *)
Definition is_mount (e : event) : bool :=
  match e with
  | Called (Run [s; c; _; _]) (Exit 0) =>
      bool_decide (s = "sudo" ∧ c = "mount")
  | _ => false
  end.

Definition is_umount (e : event) : bool :=
  match e with
  | Called (Run [s; c; _]) (Exit 0) =>
      bool_decide (s = "sudo" ∧ c = "umount")
  | _ => false
  end.

Definition mount_calls (hist : list event) : nat :=
  length (filter (λ e, is_mount e = true) hist).

Definition umount_calls (hist : list event) : nat :=
  length (filter (λ e, is_umount e = true) hist).

(** The pins after the GPIO writes of [hist], starting from [p]. *)
Definition write (p : gmap Z bool) (e : event) : gmap Z bool :=
  match e with
  | Output pin v => <[pin := v]> p
  | Called _ _ => p
  end.

Definition pins_after (p : gmap Z bool) (hist : list event) : gmap Z bool :=
  foldl write p hist.

(** GPIO pins (BCM numbering) *)
Definition BTN_PIN : Z := 17.
Definition LED_READY : Z := 22.
Definition LED_CLONING : Z := 23.
Definition LED_DONE : Z := 24.

Definition HIGH : bool := true.
Definition LOW : bool := false.

(** The LEDs that are lit. *)
Definition lit (p : gmap Z bool) (pin : Z) : bool :=
  bool_decide (p !! pin = Some HIGH).

(** Strings *)

Definition lower_ascii (c : Ascii.ascii) : Ascii.ascii :=
  let n := Ascii.nat_of_ascii c in
  if ((65 <=? n) && (n <=? 90))%nat then Ascii.ascii_of_nat (n + 32) else c.

Fixpoint lower (s : string) : string :=
  match s with
  | EmptyString => EmptyString
  | String c s' => String (lower_ascii c) (lower s')
  end.

Fixpoint basename_from (acc s : string) : string :=
  match s with
  | EmptyString => acc
  | String c s' =>
      if Ascii.eqb c "/"%char then basename_from "" s'
      else basename_from (acc +:+ String c "") s'
  end.

(** [os.path.basename] *)
Definition basename (s : string) : string := basename_from "" s.

(** [s[-1]] of a string that is not empty *)
Definition last_char (s : string) : string :=
  String.substring (String.length s - 1) 1 s.

(** ** The loop around the button

    One observation is taken for every read of the button: the value that
    [GPIO.input(BTN_PIN)] returns, and, for an iteration of [while True],
    the value of [time.time() % 2 < 0.5] and the file system as it is
    then.  The loop runs forever; the model folds its step over any finite
    list of observations. *)

Record obs := Obs {
  blink_phase : bool;
  button : bool;
  seen : sysfs
}.

(** Where the loop stands between two reads of the button: at the head of
    [while True], inside [while GPIO.input(BTN_PIN) == GPIO.LOW], or left
    by an exception. *)
Inductive mode := Polling | Waiting | Stopped.

(** [attempts] counts how many times the body of the [if] on the button
    was entered. *)
Record loop_state := LoopState {
  at_mode : mode;
  at_world : world;
  attempts : nat
}.

(** How the body of the [if] on the button ends: with [continue], or by
    reaching the wait for the release. *)
Inductive flow := Continue | Release.

Module ProdExec.
Import Prod.

(** [GPIO.output(pin, v)] on the hardware *)
Definition output (pin : Z) (v : bool) : exec unit := λ _ w,
  (Ok (), World (<[pin := v]> (pins w)) (history w ++ [Output pin v])).

(** [GPIO.input(pin)] of an LED pin: the level that was written *)
Definition input (pin : Z) : exec bool := λ _ w,
  (Ok (default LOW (pins w !! pin)), w).

Definition led_on (pin : Z) : exec unit := output pin HIGH.
Definition led_off (pin : Z) : exec unit := output pin LOW.

Definition led_off_all : exec unit :=
  led_off LED_READY;; led_off LED_CLONING;; led_off LED_DONE.

Definition blink_ready : exec unit :=
  current_state ← input LED_READY;
  if negb current_state then led_on LED_READY else led_off LED_READY.

Definition error_pattern : exec unit :=
  repeat_exec 5 (led_off_all;; led_on LED_READY);;
  led_off_all.

Definition dd_cmd (source dest : dev) : list string :=
  ["sudo"; "dd"; "if=" +:+ device source; "of=" +:+ device dest;
   "bs=4M"; "status=progress"; "conv=fsync"].

Definition clone_device (source dest : dev) : exec unit :=
  try_except
    (led_off_all;;
     led_on LED_CLONING;;
     returncode ← popen_wait (dd_cmd source dest);
     (if bool_decide (returncode ≠ 0)
      then throw (CalledProcessError returncode (dd_cmd source dest))
      else mret ());;
     os_call Sync;;
     led_off LED_CLONING;;
     led_on LED_DONE)
    (λ e, error_pattern;; throw e).

(** The body of [if GPIO.input(BTN_PIN) == GPIO.LOW], up to the wait for
    the release. *)
Definition pressed (fs : sysfs) : exec flow :=
  led_off_all;;
  led_on LED_READY;;
  try_except
    (let devices := detect_devices fs in
     if bool_decide (devices = []) then error_pattern;; mret Continue
     else
       match identify_source_dest devices with
       | None => error_pattern;; mret Continue
       | Some (source, dest) =>
           if negb (validate_clone source dest)
           then error_pattern;; mret Continue
           else clone_device source dest;; mret Release
       end)
    (λ e, error_pattern;; mret Release).

(** [cleanup], which the [finally] of [main_loop] runs when an exception
    leaves the loop. *)
Definition cleanup : exec unit := led_off_all.

Definition step (h : host) (st : loop_state) (o : obs) : loop_state :=
  match at_mode st with
  | Stopped => st
  | Waiting =>
      if button o then LoopState Polling (at_world st) (attempts st)
      else st
  | Polling =>
      let blink :=
        if blink_phase o then blink_ready else led_off LED_READY in
      let w1 := (blink h (at_world st)).2 in
      if button o then LoopState Polling w1 (attempts st)
      else
        match pressed (seen o) h w1 with
        | (Ok Continue, w2) => LoopState Polling w2 (S (attempts st))
        | (Ok Release, w2) => LoopState Waiting w2 (S (attempts st))
        | (Raise _, w2) =>
            LoopState Stopped (cleanup h w2).2 (S (attempts st))
        end
  end.

(** The pins after [setup_gpio]. *)
Definition setup_gpio : gmap Z bool :=
  <[LED_DONE := LOW]> (<[LED_CLONING := LOW]> (<[LED_READY := LOW]> ∅)).

Definition start : loop_state :=
  LoopState Polling (World setup_gpio []) 0.

Definition main_loop (h : host) (observations : list obs) : loop_state :=
  foldl (step h) start observations.

End ProdExec.

Module MockExec.
Import Mock.

(** [GPIOMock.output]: only a pin that was set up is written. *)
Definition output (pin : Z) (v : bool) : exec unit := λ _ w,
  if bool_decide (is_Some (pins w !! pin))
  then (Ok (), World (<[pin := v]> (pins w)) (history w ++ [Output pin v]))
  else (Ok (), w).

(** [GPIOMock.input] of a pin other than the button: always [HIGH]. *)
Definition input (pin : Z) : exec bool := mret HIGH.

Definition led_off_all : exec unit :=
  output LED_READY LOW;; output LED_CLONING LOW;; output LED_DONE LOW.

Definition blink_ready : exec unit :=
  v ← input LED_READY;
  output LED_READY (negb v).

Definition error_pattern : exec unit :=
  repeat_exec 5 (output LED_READY HIGH;; output LED_READY LOW).

(** [detect_devices]: the three test devices in test mode; otherwise the
    loop over [/sys/block] returns the empty list at its first
    directory, and the empty list is returned after it as well. *)
Definition detect_devices (test_mode : bool) : list dev :=
  if test_mode then
    [ Dev "/dev/disk/by-id/usb-Test_Flash_123456-0:0" "sdc" 3200
          "USB_Flash_Drive" (Some "123456");
      Dev "/dev/disk/by-id/usb-Backup_Plus_789012-0:1" "sdd" 100000
          "Backup_Plus_HDD" (Some "789012");
      Dev "/dev/disk/by-id/usb-SD_Card_Reader_345678-0:0" "sde" 6400
          "SD_Card_Reader" (Some "345678") ]
  else [].

Definition get_filesystem_type (d : string) : exec string :=
  out ← ask (λ h, blkid h d);
  mret (match out with
        | Some s => lower s
        | None => "unknown"
        end).

(** The dictionary [mkfs_cmd] *)
Definition mkfs_cmd (dest fstype : string) : option (list string) :=
  if String.eqb fstype "ext4" then Some ["mkfs.ext4"; "-F"; dest]
  else if String.eqb fstype "vfat" then Some ["mkfs.vfat"; "-F"; "32"; dest]
  else if String.eqb fstype "fat32" then Some ["mkfs.vfat"; "-F"; "32"; dest]
  else if String.eqb fstype "ntfs" then Some ["mkfs.ntfs"; "-F"; dest]
  else if String.eqb fstype "exfat" then Some ["mkfs.exfat"; dest]
  else None.

Definition temp_mount : string := "/mnt/temp_clone".
Definition source_temp : string := "/mnt/temp_source".

Definition rsync_cmd (from : string) : list string :=
  ["sudo"; "rsync"; "-avh"; "--progress"; "--exclude"; "/lost+found";
   from; temp_mount +:+ "/"].

Definition clone_filesystem (source dest fstype : string) : exec unit :=
  match mkfs_cmd dest fstype with
  | Some cmd => run_checked ("sudo" :: cmd)
  | None => mret ()
  end;;
  os_call (Makedirs temp_mount);;
  run_checked ["sudo"; "mount"; dest; temp_mount];;
  try_finally
    (is_mounted ← ask (λ h, ismount h source);
     source_mounted ←
       (if negb is_mounted then
          os_call (Makedirs source_temp);;
          run_checked ["sudo"; "mount"; source; source_temp];;
          mret true
        else mret false);
     popen_wait
       (rsync_cmd (if source_mounted : bool then source_temp +:+ "/"
                   else source +:+ ":/"));;
     if source_mounted : bool
     then run_checked ["sudo"; "umount"; source_temp]
     else mret ())
    (run_checked ["sudo"; "umount"; temp_mount];;
     os_call (Rmdir temp_mount)).

Definition raw_clone (source dest : string) : exec unit :=
  size ← ask (λ h, get_device_size (blockdev_getsize64 h) source);
  run_checked
    ["/bin/sh"; "-c";
     "sudo dd if=" +:+ source +:+ " of=" +:+ dest
       +:+ " bs=4M status=progress"].

(** The test [fstype in ['ext4', 'fat32', 'vfat', 'ntfs', 'exfat']] *)
Definition filesystem_aware (fstype : string) : bool :=
  bool_decide (fstype ∈ ["ext4"; "fat32"; "vfat"; "ntfs"; "exfat"]).

(** The body of [for part in source_parts]; [part] is the name of the
    partition in [/dev]. *)
Definition clone_part (dest part : string) : exec unit :=
  let part_num := last_char part in
  let dest_part := dest +:+ part_num in
  fstype ← get_filesystem_type ("/dev/" +:+ part);
  if filesystem_aware fstype
  then clone_filesystem ("/dev/" +:+ part) dest_part fstype
  else raw_clone ("/dev/" +:+ part) dest_part.

Definition clone_with_rsync (test_mode : bool) (source dest : string)
  : exec unit :=
  if test_mode then mret ()
  else
    run_checked ["sudo"; "sgdisk"; "-R"; dest; source];;
    run_checked ["sudo"; "partprobe"; dest];;
    source_parts ← ask (λ h, dev_glob h (basename source));
    for_each source_parts (clone_part dest).

Definition log_file : string := "~/.sdcc_logs/cloner.log".

Definition start_clone (test_mode : bool) (source dest : string)
  : exec unit :=
  output LED_CLONING HIGH;;
  output LED_READY LOW;;
  try_finally
    (try_except
       (os_call (Append log_file);;
        clone_with_rsync test_mode source dest;;
        os_call (Append log_file);;
        led_off_all;;
        output LED_DONE HIGH)
       (λ e, os_call (Append log_file);; error_pattern))
    led_off_all.

(** The body of [if GPIO.input(BTN_PIN) == GPIO.LOW and not
    button_pressed], up to the wait for the release. *)
Definition pressed (test_mode : bool) : exec unit :=
  led_off_all;;
  output LED_READY HIGH;;
  let devices := detect_devices test_mode in
  if (2 <=? length devices)%nat then
    let sd := identify_source_dest devices in
    let source := fst <$> sd in
    let dest := snd <$> sd in
    '(valid, msg) ← ask (λ h,
                          validate_clone (blockdev_getsize64 h) source dest);
    if valid : bool
    then start_clone test_mode (default "" source) (default "" dest)
    else error_pattern
  else error_pattern.

Definition step (test_mode : bool) (h : host) (st : loop_state) (o : obs)
  : loop_state :=
  match at_mode st with
  | Stopped => st
  | Waiting =>
      if button o then LoopState Polling (at_world st) (attempts st)
      else st
  | Polling =>
      let blink :=
        if blink_phase o then blink_ready else output LED_READY LOW in
      let w1 := (blink h (at_world st)).2 in
      if button o then LoopState Polling w1 (attempts st)
      else
        match pressed test_mode h w1 with
        | (Ok _, w2) =>
            LoopState (if test_mode then Polling else Waiting) w2
                      (S (attempts st))
        | (Raise _, w2) => LoopState Stopped w2 (S (attempts st))
        end
  end.

(** The pins after [HeadlessCloner.__init__]. *)
Definition init : exec unit :=
  led_off_all;; blink_ready.

Definition setup : gmap Z bool :=
  <[LED_DONE := HIGH]> (<[LED_CLONING := HIGH]>
    (<[LED_READY := HIGH]> (<[BTN_PIN := HIGH]> ∅))).

Definition start (h : host) : loop_state :=
  LoopState Polling (init h (World setup [])).2 0.

Definition main_loop (test_mode : bool) (h : host) (observations : list obs)
  : loop_state :=
  foldl (step test_mode h) (start h) observations.

End MockExec.

(** The constant [TEST_MODE] of [cloner_mock.py] *)
Definition TEST_MODE : bool := true.

(** ** Edges of the button signal

    The button is active when it reads [LOW].  [rising_edges prev samples]
    counts the samples that are active right after an inactive one,
    [prev] being the level before the first sample. *)

Fixpoint rising_edges (prev : bool) (samples : list bool) : nat :=
  match samples with
  | [] => 0
  | s :: l => (if prev && negb s then 1 else 0) + rising_edges s l
  end.

Definition active_samples (samples : list bool) : nat :=
  length (filter (λ s, s = LOW) samples).

(** The level of the button at the last read, as the mode of the loop
    remembers it. *)
Definition level_of (m : mode) : bool :=
  match m with
  | Waiting => LOW
  | _ => HIGH
  end.



(** The log file of the mock variant can be appended to. *)
Definition log_writable (h : host) : Prop :=
  ∀ hist, answer h hist (Append MockExec.log_file) ≠ Fails.

(** [m] returns normally on the host [h], with a value in [P]. *)
Definition succeeds {A} (h : host) (m : exec A) (P : A → Prop) : Prop :=
  ∀ w, ∃ a w', m h w = (Ok a, w') ∧ P a.

(** ** Orders on devices *)

Definition by_size (a b : dev) : Prop := size_gb a ≤ size_gb b.

(** [s] has the least size of [l], [d] the greatest. *)
Definition smallest (l : list dev) (s : dev) : Prop :=
  s ∈ l ∧ ∀ x, x ∈ l → size_gb s ≤ size_gb x.

Definition largest (l : list dev) (d : dev) : Prop :=
  d ∈ l ∧ ∀ x, x ∈ l → size_gb x ≤ size_gb d.

(** The claim C6 as it is worded: the recorded size is the one computed
    with decimal gigabytes. *)
Definition size_gb_is_decimal : Prop :=
  ∀ (fs : sysfs) (e : block_entry) (size : Z) (d : dev),
    e ∈ sys_block fs → size_text e = Some size →
    Prod.detect_entry fs e = Some d →
    size_gb d = size_gb_decimal size.

(** ** Hosts, file systems and observations used in the examples *)

Definition is_rsync (c : call) : bool :=
  match c with
  | Run (_ :: r :: _) => String.eqb r "rsync"
  | _ => false
  end.

(** Every call succeeds; the source has one ext4 partition, [sdc1]; no
    size can be read with [blockdev]. *)
Definition host_ok : host :=
  Host (λ _ _, Exit 0) (λ _, false) (λ _, ["sdc1"]) (λ _, Some "ext4")
       (λ _, None).

(** As [host_ok], but [rsync] cannot be started. *)
Definition host_no_rsync : host :=
  Host (λ _ c, if is_rsync c then Fails else Exit 0)
       (λ _, false) (λ _, ["sdc1"]) (λ _, Some "ext4") (λ _, None).

(** As [host_ok], but [rsync] exits with status 23. *)
Definition host_rsync_23 : host :=
  Host (λ _ c, if is_rsync c then Exit 23 else Exit 0)
       (λ _, false) (λ _, ["sdc1"]) (λ _, Some "ext4") (λ _, None).

(** A card of 62333952 sectors and a disk of 1953525168 sectors. *)
Definition two_disks : sysfs :=
  Sysfs [BlockEntry "sda" true (Some 62333952) (Some (Some "Ultra"));
         BlockEntry "sdb" true (Some 1953525168) None]
        [].

(** One disk of 1 GiB. *)
Definition one_gib : sysfs :=
  Sysfs [BlockEntry "sda" true (Some 2097152) None] [].

(** One card, [sda], with a link in [/dev/disk/by-id] whose name ends in
    [sda], and the same card with a link named after its serial number.
    Both links resolve to [/dev/sda]. *)
Definition linked_by_name : sysfs :=
  Sysfs [BlockEntry "sda" true (Some 62333952) (Some (Some "Ultra"))]
        [("usb-SanDisk_Ultra_4C53-sda", "/dev/sda")].

Definition linked_by_serial : sysfs :=
  Sysfs [BlockEntry "sda" true (Some 62333952) (Some (Some "Ultra"))]
        [("usb-SanDisk_Ultra_4C53-0:0", "/dev/sda")].

(** The button held down, and the button released during the lit phase
    of the blinking. *)
Definition held (fs : sysfs) : obs := Obs false LOW fs.
Definition released (fs : sysfs) : obs := Obs true HIGH fs.

(** ** What is observed of a run *)

(** The events of a history that are calls, and those that are
    processes. *)
Definition is_called (e : event) : bool :=
  match e with
  | Called _ _ => true
  | Output _ _ => false
  end.

(** The processes and [os.sync()]. *)
Definition is_run_or_sync (e : event) : bool :=
  match e with
  | Called (Run _) _ => true
  | Called Sync _ => true
  | _ => false
  end.

(** The appends to a log file.  Those of [log()] of the production
    variant, which never raise, are not recorded in the history; the
    properties of the production variant are stated on the other
    events. *)
Definition is_append (e : event) : bool :=
  match e with
  | Called (Append _) _ => true
  | _ => false
  end.

(** The command of [get_device_size]:
    [['sudo', 'blockdev', '--getsize64', device]]. *)
Definition is_size_query (argv : list string) : bool :=
  match argv with
  | [a; b; c; _] =>
      String.eqb a "sudo" && String.eqb b "blockdev"
      && String.eqb c "--getsize64"
  | _ => false
  end.

(** The processes other than the size queries.  [get_device_size] starts
    its process to read a size and catches its failure; it is a query of
    the host here, which leaves no event. *)
Definition is_other_process (e : event) : bool :=
  match e with
  | Called (Run argv) _ => negb (is_size_query argv)
  | _ => false
  end.

(** None of the three LEDs is lit. *)
Definition leds_off (p : gmap Z bool) : Prop :=
  lit p LED_READY = false ∧ lit p LED_CLONING = false
  ∧ lit p LED_DONE = false.

(** Two file systems for the examples: a loop device, a RAM disk and the
    boot card beside a USB disk; and a disk whose size cannot be read
    between two disks. *)
Definition with_pseudo_devices : sysfs :=
  Sysfs [BlockEntry "loop0" true (Some 8) None;
         BlockEntry "ram0" true (Some 8) None;
         BlockEntry "mmcblk0" true (Some 62333952) None;
         BlockEntry "sda" true (Some 62333952) (Some (Some "Ultra"))]
        [].

Definition unreadable_disk : block_entry :=
  BlockEntry "sdx" true None None.

(** [m] returns normally on the host [h] and makes no call: it only
    writes to the pins. *)
Definition quiet {A} (h : host) (m : exec A) : Prop :=
  ∀ w, ∃ a w', m h w = (Ok a, w')
               ∧ filter (λ e, is_called e = true) (history w')
                 = filter (λ e, is_called e = true) (history w).

(** [m] starts no process on the host [h], the size queries aside,
    whether it returns or raises. *)
Definition no_run {A} (h : host) (m : exec A) : Prop :=
  ∀ w, filter (λ e, is_other_process e = true) (history (m h w).2)
       = filter (λ e, is_other_process e = true) (history w).

(** A host on which every call exits with status 1. *)
Definition host_all_fail : host :=
  Host (λ _ _, Exit 1) (λ _, false) (λ _, ["sdc1"]) (λ _, Some "ext4")
       (λ _, None).

(** * Properties *)

(** ** Running the monad *)

Lemma bind_Ok {A B} (m : exec A) (f : A → exec B) h w a w' :
  m h w = (Ok a, w') → (m ≫= f) h w = f a h w'.
Proof. unfold mbind, exec_bind. by intros ->. Qed.

Lemma bind_Raise {A B} (m : exec A) (f : A → exec B) h w e w' :
  m h w = (Raise e, w') → (m ≫= f) h w = (Raise e, w').
Proof. unfold mbind, exec_bind. by intros ->. Qed.

Lemma popen_wait_exit (argv : list string) (h : host) (w : world) (rc : Z) :
  answer h (history w) (Run argv) = Exit rc →
  popen_wait argv h w
  = (Ok rc, World (pins w) (history w ++ [Called (Run argv) (Exit rc)])).
Proof.
  intros Hrc. unfold popen_wait, perform, mbind, exec_bind. by rewrite Hrc.
Qed.

Section succeeds.
Context (h : host).

Lemma succeeds_ret {A} (a : A) (P : A → Prop) :
  P a → succeeds h (mret a) P.
Proof. intros Ha w. by exists a, w. Qed.

Lemma succeeds_bind {A B} (m : exec A) (f : A → exec B)
    (Q : A → Prop) (P : B → Prop) :
  succeeds h m Q → (∀ a, Q a → succeeds h (f a) P) →
  succeeds h (m ≫= f) P.
Proof.
  intros Hm Hf w. destruct (Hm w) as (a & w1 & Hw & Ha).
  destruct (Hf a Ha w1) as (b & w2 & Hw2 & Hb).
  exists b, w2. split; [|done].
  unfold mbind, exec_bind. by rewrite Hw.
Qed.

Lemma succeeds_seq {B} (m : exec unit) (k : exec B) (P : B → Prop) :
  succeeds h m (λ _, True) → succeeds h k P → succeeds h (m;; k) P.
Proof. intros Hm Hk. apply (succeeds_bind _ _ (λ _, True)); auto. Qed.

Lemma succeeds_try_except {A} (m : exec A) (handler : exn → exec A)
    (P : A → Prop) :
  (∀ w a w', m h w = (Ok a, w') → P a) →
  (∀ e, succeeds h (handler e) P) →
  succeeds h (try_except m handler) P.
Proof.
  intros Hm Hh w. unfold try_except.
  destruct (m h w) as [[a|e] w1] eqn:Hw.
  - exists a, w1. split; [done|]. by apply (Hm w a w1).
  - apply Hh.
Qed.

Lemma succeeds_try_finally {A} (m : exec A) (fin : exec unit)
    (P : A → Prop) :
  succeeds h m P → succeeds h fin (λ _, True) →
  succeeds h (try_finally m fin) P.
Proof.
  intros Hm Hf w. unfold try_finally.
  destruct (Hm w) as (a & w1 & -> & Ha).
  destruct (Hf w1) as ([] & w2 & -> & _).
  by exists a, w2.
Qed.


Lemma prod_output_succeeds pin v :
  succeeds h (ProdExec.output pin v) (λ _, True).
Proof. intros w. by eexists _, _. Qed.

Lemma mock_output_succeeds pin v :
  succeeds h (MockExec.output pin v) (λ _, True).
Proof.
  intros w. unfold MockExec.output.
  destruct (bool_decide _); by eexists _, _.
Qed.

Lemma prod_led_off_all_succeeds :
  succeeds h ProdExec.led_off_all (λ _, True).
Proof.
  repeat (apply succeeds_seq; [apply prod_output_succeeds|]).
  apply prod_output_succeeds.
Qed.

Lemma mock_led_off_all_succeeds :
  succeeds h MockExec.led_off_all (λ _, True).
Proof.
  repeat (apply succeeds_seq; [apply mock_output_succeeds|]).
  apply mock_output_succeeds.
Qed.

Lemma repeat_exec_succeeds n (m : exec unit) :
  succeeds h m (λ _, True) →
  succeeds h (repeat_exec n m) (λ _, True).
Proof.
  intros Hm. induction n as [|n IH]; simpl.
  - by apply succeeds_ret.
  - by apply succeeds_seq.
Qed.

Lemma prod_error_pattern_succeeds :
  succeeds h ProdExec.error_pattern (λ _, True).
Proof.
  apply succeeds_seq; [|apply prod_led_off_all_succeeds].
  apply repeat_exec_succeeds.
  apply succeeds_seq;
    [apply prod_led_off_all_succeeds|apply prod_output_succeeds].
Qed.

Lemma mock_error_pattern_succeeds :
  succeeds h MockExec.error_pattern (λ _, True).
Proof.
  apply repeat_exec_succeeds.
  apply succeeds_seq; apply mock_output_succeeds.
Qed.

Lemma append_succeeds :
  log_writable h →
  succeeds h (os_call (Append MockExec.log_file)) (λ _, True).
Proof.
  intros Hlog w. unfold os_call, perform, mbind, exec_bind.
  specialize (Hlog (history w)).
  destruct (answer h (history w) (Append MockExec.log_file));
    [by eexists _, _|done].
Qed.

End succeeds.

(** ** Sorting by size *)

Section sorting.
Implicit Types (l : list dev) (x s d : dev).

Lemma insert_by_size_perm x l : insert_by_size x l ≡ₚ x :: l.
Proof.
  induction l as [|y l IH]; simpl; [done|].
  destruct (size_gb x <=? size_gb y); [done|].
  rewrite IH. apply Permutation_swap.
Qed.

Lemma sorted_perm l : sorted l ≡ₚ l.
Proof.
  induction l as [|x l IH]; simpl; [done|].
  rewrite insert_by_size_perm. by rewrite IH.
Qed.

Lemma insert_by_size_sorted x l :
  StronglySorted by_size l → StronglySorted by_size (insert_by_size x l).
Proof.
  induction 1 as [|y l Hl IH Hy]; simpl.
  - repeat constructor.
  - destruct (Z.leb_spec (size_gb x) (size_gb y)) as [Hxy|Hxy].
    + constructor; [by constructor|].
      constructor; [done|].
      eapply Forall_impl; [exact Hy|].
      unfold by_size. intros z Hz. lia.
    + constructor; [done|].
      rewrite insert_by_size_perm.
      constructor; [unfold by_size; lia|done].
Qed.

Lemma sorted_sorted l : StronglySorted by_size (sorted l).
Proof.
  induction l as [|x l IH]; simpl; [constructor|].
  by apply insert_by_size_sorted.
Qed.

Lemma sorted_first l s :
  StronglySorted by_size l → first l = Some s → smallest l s.
Proof.
  destruct 1 as [|y l Hl Hy]; simpl; [done|].
  intros [= ->]. split; [by left|].
  intros x [->|Hx]%elem_of_cons; [lia|].
  by apply (proj1 (Forall_forall _ _) Hy).
Qed.

Lemma sorted_final l d :
  StronglySorted by_size l → final l = Some d → largest l d.
Proof.
  unfold final. induction 1 as [|y l Hl IH Hy]; [done|].
  destruct l as [|z l'].
  - simpl. intros [= ->]. split; [by left|].
    intros x ->%list_elem_of_singleton. lia.
  - rewrite last_cons_cons. intros Hd.
    destruct (IH Hd) as [Hin Hmax]. split; [by right|].
    intros x [->|Hx]%elem_of_cons; [|by apply Hmax].
    by apply (proj1 (Forall_forall _ _) Hy).
Qed.

Lemma size_gb_inj l x s :
  NoDup (size_gb <$> l) → x ∈ l → s ∈ l → size_gb x = size_gb s → x = s.
Proof.
  induction l as [|y l IH]; simpl; [by intros _ ?%elem_of_nil|].
  intros [Hy Hl]%NoDup_cons [->|Hx]%elem_of_cons [->|Hs]%elem_of_cons Heq;
    [done| | |by apply IH].
  - destruct Hy. rewrite Heq. by apply list_elem_of_fmap_2.
  - destruct Hy. rewrite <- Heq. by apply list_elem_of_fmap_2.
Qed.

Lemma smallest_unique l s s' :
  NoDup (size_gb <$> l) → smallest l s → smallest l s' → s = s'.
Proof.
  intros Hnd [Hs Hmin] [Hs' Hmin'].
  apply (size_gb_inj l); [done..|].
  specialize (Hmin _ Hs'). specialize (Hmin' _ Hs). lia.
Qed.

Lemma largest_unique l d d' :
  NoDup (size_gb <$> l) → largest l d → largest l d' → d = d'.
Proof.
  intros Hnd [Hd Hmax] [Hd' Hmax'].
  apply (size_gb_inj l); [done..|].
  specialize (Hmax _ Hd'). specialize (Hmax' _ Hd). lia.
Qed.

Lemma smallest_perm l l' s : l' ≡ₚ l → smallest l' s → smallest l s.
Proof.
  intros Hp [Hs Hmin]. split; [by rewrite <- Hp|].
  intros x Hx. apply Hmin. by rewrite Hp.
Qed.

Lemma largest_perm l l' d : l' ≡ₚ l → largest l' d → largest l d.
Proof.
  intros Hp [Hd Hmax]. split; [by rewrite <- Hp|].
  intros x Hx. apply Hmax. by rewrite Hp.
Qed.

(** On two devices or more, both variants pick the first and the last
    device of the sorted list, which have the least and the greatest
    size. *)
Lemma sorted_ends l :
  (2 ≤ length l)%nat →
  ∃ s d, first (sorted l) = Some s ∧ final (sorted l) = Some d
         ∧ smallest l s ∧ largest l d.
Proof.
  intros Hlen.
  pose proof (sorted_perm l) as Hp.
  pose proof (sorted_sorted l) as Hs.
  assert (length (sorted l) = length l) as Hl by by rewrite Hp.
  destruct (first (sorted l)) as [s|] eqn:Hf.
  2: { apply head_None in Hf. rewrite Hf in Hl. simpl in Hl. lia. }
  destruct (final (sorted l)) as [d|] eqn:Hd.
  2: { apply last_None in Hd. rewrite Hd in Hl. simpl in Hl. lia. }
  exists s, d. repeat split; try done.
  - apply (sorted_first _ _ Hs) in Hf. by apply (smallest_perm _ _ _ Hp).
  - apply (sorted_first _ _ Hs) in Hf. apply (smallest_perm _ _ _ Hp Hf).
  - apply (sorted_final _ _ Hs) in Hd. by apply (largest_perm _ _ _ Hp).
  - apply (sorted_final _ _ Hs) in Hd. apply (largest_perm _ _ _ Hp Hd).
Qed.

End sorting.

Lemma identify_source_dest_ends (l : list dev) (s d : dev) :
  (2 ≤ length l)%nat →
  first (sorted l) = Some s → final (sorted l) = Some d →
  Prod.identify_source_dest l = Some (s, d)
  ∧ Mock.identify_source_dest l = Some (device s, device d).
Proof.
  intros Hlen Hs Hd.
  unfold Prod.identify_source_dest, Mock.identify_source_dest.
  destruct (Nat.ltb_spec (length l) 2) as [?|_]; [lia|].
  by rewrite Hs, Hd.
Qed.

(** ** Classification *)

(** C1: on a list of two devices or more whose sizes are pairwise distinct,
    [identify_source_dest] returns the device of least size as the source
    and the device of greatest size as the destination (the mock variant
    returns their paths), and it returns the same pair on every
    permutation of the list. *)
Theorem identify_source_dest_extremes (devices : list dev) :
  (2 ≤ length devices)%nat →
  NoDup (size_gb <$> devices) →
  ∃ s d,
    smallest devices s ∧ largest devices d
    ∧ Prod.identify_source_dest devices = Some (s, d)
    ∧ Mock.identify_source_dest devices = Some (device s, device d)
    ∧ ∀ devices', devices' ≡ₚ devices →
        Prod.identify_source_dest devices' = Some (s, d)
        ∧ Mock.identify_source_dest devices' = Some (device s, device d).
Proof.
  intros Hlen Hnd.
  destruct (sorted_ends devices Hlen) as (s & d & Hs & Hd & Hmin & Hmax).
  exists s, d. split; [done|]. split; [done|].
  destruct (identify_source_dest_ends devices s d) as [HP HM]; [done..|].
  split; [done|]. split; [done|].
  intros devices' Hp.
  assert (2 ≤ length devices')%nat as Hlen' by by rewrite Hp.
  destruct (sorted_ends devices' Hlen')
    as (s' & d' & Hs' & Hd' & Hmin' & Hmax').
  apply (smallest_perm _ _ _ Hp) in Hmin'.
  apply (largest_perm _ _ _ Hp) in Hmax'.
  rewrite (smallest_unique devices s s' Hnd Hmin Hmin').
  rewrite (largest_unique devices d d' Hnd Hmax Hmax').
  by apply identify_source_dest_ends.
Qed.

Lemma identify_source_dest_extremes_witness :
  let devices := MockExec.detect_devices TEST_MODE in
  (2 ≤ length devices)%nat
  ∧ NoDup (size_gb <$> devices)
  ∧ ∃ s d,
      smallest devices s ∧ largest devices d
      ∧ Prod.identify_source_dest devices = Some (s, d)
      ∧ Mock.identify_source_dest devices = Some (device s, device d)
      ∧ ∀ devices', devices' ≡ₚ devices →
          Prod.identify_source_dest devices' = Some (s, d)
          ∧ Mock.identify_source_dest devices' = Some (device s, device d).
Proof.
  assert (2 ≤ length (MockExec.detect_devices TEST_MODE))%nat as Hlen
    by (simpl; lia).
  assert (NoDup (size_gb <$> MockExec.detect_devices TEST_MODE)) as Hnd
    by (apply (bool_decide_unpack _); vm_compute; exact I).
  split; [exact Hlen|]. split; [exact Hnd|].
  exact (identify_source_dest_extremes _ Hlen Hnd).
Defined.

(** ** Validation *)

Lemma truthy_Some (s : string) : s ≠ "" → truthy (Some s) = true.
Proof.
  intros Hs. simpl. destruct (String.eqb_spec s ""); [done|done].
Qed.

Lemma mock_validate_clone_sizes (bd : Mock.blockdev) (src dst : string) :
  src ≠ "" → dst ≠ "" →
  Mock.validate_clone bd (Some src) (Some dst) =
    if Mock.get_device_size bd dst <? Mock.get_device_size bd src
    then (false, "Destination too small") else (true, "OK").
Proof.
  intros Hs Hd. unfold Mock.validate_clone.
  by rewrite (truthy_Some _ Hs), (truthy_Some _ Hd).
Qed.

(** C4: [validate_clone] returns false exactly when the size of the source
    is strictly greater than the size of the destination, and true
    otherwise, equal sizes included.  The production variant compares the
    [size_gb] of the two dictionaries; the mock variant compares the
    sizes that [get_device_size] gives for the two device paths of the
    pair. *)
Theorem validate_clone_iff
    (source dest : dev) (bd : Mock.blockdev) (src dst : string) :
  src ≠ "" → dst ≠ "" →
  (Prod.validate_clone source dest = false ↔ size_gb source > size_gb dest)
  ∧ (Prod.validate_clone source dest = true ↔ size_gb source ≤ size_gb dest)
  ∧ ((Mock.validate_clone bd (Some src) (Some dst)).1 = false
       ↔ Mock.get_device_size bd src > Mock.get_device_size bd dst)
  ∧ ((Mock.validate_clone bd (Some src) (Some dst)).1 = true
       ↔ Mock.get_device_size bd src ≤ Mock.get_device_size bd dst).
Proof.
  intros Hs Hd. rewrite (mock_validate_clone_sizes bd src dst Hs Hd).
  unfold Prod.validate_clone.
  destruct (Z.gtb_spec (size_gb source) (size_gb dest));
    destruct (Z.ltb_spec (Mock.get_device_size bd dst)
                         (Mock.get_device_size bd src));
    simpl; repeat split; intros; first [done | lia].
Qed.

Lemma validate_clone_iff_witness :
  let source := Dev "/dev/sda" "sda" 3200 "Unknown" None in
  let dest := Dev "/dev/sdb" "sdb" 3200 "Unknown" None in
  let bd : Mock.blockdev := λ _, Some 32000000000 in
  "/dev/sda" ≠ "" ∧ "/dev/sdb" ≠ ""
  ∧ (Prod.validate_clone source dest = false ↔ size_gb source > size_gb dest)
  ∧ (Prod.validate_clone source dest = true ↔ size_gb source ≤ size_gb dest)
  ∧ ((Mock.validate_clone bd (Some "/dev/sda") (Some "/dev/sdb")).1 = false
       ↔ Mock.get_device_size bd "/dev/sda" > Mock.get_device_size bd "/dev/sdb")
  ∧ ((Mock.validate_clone bd (Some "/dev/sda") (Some "/dev/sdb")).1 = true
       ↔ Mock.get_device_size bd "/dev/sda" ≤ Mock.get_device_size bd "/dev/sdb").
Proof.
  assert ("/dev/sda" ≠ "") as Hs by discriminate.
  assert ("/dev/sdb" ≠ "") as Hd by discriminate.
  split; [exact Hs|]. split; [exact Hd|].
  exact (validate_clone_iff _ _ _ _ _ Hs Hd).
Defined.

(** C10: in the mock variant [get_device_size] is 0 for a device whose size
    cannot be read, and [validate_clone] then answers [(True, "OK")] for
    every pair whose source is such a device: 0 is not greater than the
    size of the destination. *)
Theorem unreadable_source_validates
    (bd : Mock.blockdev) (src dst : string) :
  src ≠ "" → dst ≠ "" →
  bd src = None →
  0 ≤ Mock.get_device_size bd dst →
  Mock.get_device_size bd src = 0
  ∧ Mock.validate_clone bd (Some src) (Some dst) = (true, "OK").
Proof.
  intros Hs Hd Hsrc Hdst.
  assert (Mock.get_device_size bd src = 0) as H0
    by (unfold Mock.get_device_size; by rewrite Hsrc).
  split; [done|].
  rewrite (mock_validate_clone_sizes bd src dst Hs Hd), H0.
  by destruct (Z.ltb_spec (Mock.get_device_size bd dst) 0); [lia|].
Qed.

Lemma unreadable_source_validates_witness :
  let bd : Mock.blockdev :=
    λ d, if String.eqb d "/dev/sdd" then Some 1000 else None in
  "/dev/sdc" ≠ "" ∧ "/dev/sdd" ≠ ""
  ∧ bd "/dev/sdc" = None
  ∧ 0 ≤ Mock.get_device_size bd "/dev/sdd"
  ∧ Mock.get_device_size bd "/dev/sdc" = 0
  ∧ Mock.validate_clone bd (Some "/dev/sdc") (Some "/dev/sdd") = (true, "OK").
Proof.
  intros bd.
  assert ("/dev/sdc" ≠ "") as Hs by discriminate.
  assert ("/dev/sdd" ≠ "") as Hd by discriminate.
  assert (bd "/dev/sdc" = None) as Hsrc by reflexivity.
  assert (0 ≤ Mock.get_device_size bd "/dev/sdd") as Hdst
    by (vm_compute; discriminate).
  split; [exact Hs|]. split; [exact Hd|].
  split; [exact Hsrc|]. split; [exact Hdst|].
  exact (unreadable_source_validates bd _ _ Hs Hd Hsrc Hdst).
Defined.

(** ** Strategy *)

(** C5: for a partition whose file system type is one of ext4, vfat,
    fat32, ntfs and exfat, the loop of [clone_with_rsync] calls
    [clone_filesystem]; for every other type, the empty string and
    "unknown" included, it calls [raw_clone]. *)
Theorem strategy_by_filesystem_type
    (dest part fstype : string) (h : host) (w : world) :
  MockExec.get_filesystem_type ("/dev/" +:+ part) h w = (Ok fstype, w) →
  (fstype ∈ ["ext4"; "vfat"; "fat32"; "ntfs"; "exfat"] →
     MockExec.filesystem_aware fstype = true
     ∧ MockExec.clone_part dest part h w =
         MockExec.clone_filesystem
           ("/dev/" +:+ part) (dest +:+ last_char part) fstype h w)
  ∧ (fstype ∉ ["ext4"; "vfat"; "fat32"; "ntfs"; "exfat"] →
     MockExec.filesystem_aware fstype = false
     ∧ MockExec.clone_part dest part h w =
         MockExec.raw_clone ("/dev/" +:+ part) (dest +:+ last_char part) h w)
  ∧ MockExec.filesystem_aware "" = false
  ∧ MockExec.filesystem_aware "unknown" = false.
Proof.
  intros Hfs.
  assert (∀ fa, MockExec.filesystem_aware fstype = fa →
    MockExec.clone_part dest part h w =
      if fa
      then MockExec.clone_filesystem
             ("/dev/" +:+ part) (dest +:+ last_char part) fstype h w
      else MockExec.raw_clone
             ("/dev/" +:+ part) (dest +:+ last_char part) h w) as Hpart.
  { intros fa Hfa. unfold MockExec.clone_part.
    unfold mbind at 1, exec_bind. rewrite Hfs, Hfa. by destruct fa. }
  split; [|split; [|split; reflexivity]].
  - intros Hin.
    assert (MockExec.filesystem_aware fstype = true) as Hfa.
    { apply bool_decide_eq_true. revert Hin.
      rewrite !elem_of_cons, !elem_of_nil. tauto. }
    split; [done|]. by rewrite (Hpart _ Hfa).
  - intros Hout.
    assert (MockExec.filesystem_aware fstype = false) as Hfa.
    { apply bool_decide_eq_false. revert Hout.
      rewrite !elem_of_cons, !elem_of_nil. tauto. }
    split; [done|]. by rewrite (Hpart _ Hfa).
Qed.

Lemma strategy_by_filesystem_type_witness :
  let w := World ∅ [] in
  MockExec.get_filesystem_type ("/dev/" +:+ "sdc1") host_ok w = (Ok "ext4", w)
  ∧ ("ext4" ∈ ["ext4"; "vfat"; "fat32"; "ntfs"; "exfat"] →
       MockExec.filesystem_aware "ext4" = true
       ∧ MockExec.clone_part "/dev/sdd" "sdc1" host_ok w =
           MockExec.clone_filesystem
             ("/dev/" +:+ "sdc1") ("/dev/sdd" +:+ last_char "sdc1") "ext4"
             host_ok w)
  ∧ ("ext4" ∉ ["ext4"; "vfat"; "fat32"; "ntfs"; "exfat"] →
       MockExec.filesystem_aware "ext4" = false
       ∧ MockExec.clone_part "/dev/sdd" "sdc1" host_ok w =
           MockExec.raw_clone
             ("/dev/" +:+ "sdc1") ("/dev/sdd" +:+ last_char "sdc1") host_ok w)
  ∧ MockExec.filesystem_aware "" = false
  ∧ MockExec.filesystem_aware "unknown" = false.
Proof.
  intros w.
  assert (MockExec.get_filesystem_type ("/dev/" +:+ "sdc1") host_ok w
          = (Ok "ext4", w)) as Hfs by reflexivity.
  split; [exact Hfs|].
  exact (strategy_by_filesystem_type "/dev/sdd" "sdc1" "ext4" host_ok w Hfs).
Defined.

(** ** The catalog *)

Lemma round_half_even_nearest (n d : Z) :
  0 < d →
  2 * Z.abs (n - round_half_even n d * d) ≤ d
  ∧ (2 * Z.abs (n - round_half_even n d * d) = d
     → Z.even (round_half_even n d) = true).
Proof.
  intros Hd. unfold round_half_even.
  pose proof (Z.div_mod n d) as Hn.
  pose proof (Z.mod_pos_bound n d Hd) as Hr.
  destruct (Z.ltb_spec (2 * (n mod d)) d) as [H1|H1].
  - split; [lia|]. intros Heq. lia.
  - destruct (Z.ltb_spec d (2 * (n mod d))) as [H2|H2].
    + split; [lia|]. intros Heq. lia.
    + destruct (Z.even (n / d)) eqn:He.
      * split; [lia|done].
      * split; [lia|]. intros _.
        replace (n / d + 1) with (Z.succ (n / d)) by lia.
        rewrite Z.even_succ, <- Z.negb_even. by rewrite He.
Qed.

Lemma detect_entry_size_gb (fs : sysfs) (e : block_entry) (d : dev) :
  Prod.detect_entry fs e = Some d →
  be_name e = name d
  ∧ ∃ size, size_text e = Some size ∧ size_gb d = size_gb_of_sectors size.
Proof.
  unfold Prod.detect_entry.
  destruct (negb (be_is_dir e) || _ || _); [done|].
  destruct (startswith _ _); [done|].
  destruct (size_text e) as [size|]; [|done].
  destruct (model_text e) as [[m|]|]; [|done|];
    intros [= <-]; split; try done; by exists size.
Qed.

(** C6, counterexample: a disk of 2097152 sectors (1 GiB) is recorded with
    1.00, where bytes divided by 10^9 and rounded give 1.07. *)
Lemma size_gb_is_not_decimal :
  Prod.detect_devices one_gib = [Dev "/dev/sda" "sda" 100 "Unknown" None]
  ∧ size_gb_decimal 2097152 = 107
  ∧ ¬ size_gb_is_decimal.
Proof.
  split; [reflexivity|]. split; [reflexivity|].
  intros H.
  specialize (H one_gib (BlockEntry "sda" true (Some 2097152) None) 2097152
                (Dev "/dev/sda" "sda" 100 "Unknown" None)).
  assert (100 = 107) as Habs; [|discriminate Habs].
  apply H; [by left|reflexivity|reflexivity].
Qed.

(** C6, amended: when the sector counts are from 0 to below 2^53, for
    every device of the catalog [size_gb] is the number of sectors times
    512 bytes, divided by 1024^3 (binary gigabytes) and rounded to the
    nearest hundredth, ties to the even one; it is this rounded value that
    [identify_source_dest] and [validate_clone] compare. *)
Theorem detect_devices_size_gb (fs : sysfs) (d : dev) :
  sectors_in_range fs →
  d ∈ Prod.detect_devices fs →
  ∃ e size,
    e ∈ sys_block fs ∧ be_name e = name d ∧ size_text e = Some size
    ∧ 0 ≤ size < 2 ^ 53
    ∧ 2 * Z.abs (size * 512 * 100 - size_gb d * 1024 ^ 3) ≤ 1024 ^ 3
    ∧ (2 * Z.abs (size * 512 * 100 - size_gb d * 1024 ^ 3) = 1024 ^ 3
       → Z.even (size_gb d) = true).
Proof.
  unfold Prod.detect_devices, sectors_in_range.
  intros Hrange (e & He & Hd)%list_elem_of_omap.
  destruct (detect_entry_size_gb fs e d Hd) as (Hn & size & Hs & Hgb).
  pose proof (proj1 (Forall_forall _ _) Hrange e He size Hs) as Hsize.
  exists e, size. split; [done|]. split; [done|]. split; [done|].
  split; [done|].
  rewrite Hgb. unfold size_gb_of_sectors.
  by apply round_half_even_nearest.
Qed.

Lemma detect_devices_size_gb_witness :
  let d := Dev "/dev/sda" "sda" 2972 "Ultra" None in
  sectors_in_range two_disks
  ∧ d ∈ Prod.detect_devices two_disks
  ∧ ∃ e size,
      e ∈ sys_block two_disks ∧ be_name e = name d
      ∧ size_text e = Some size
      ∧ 0 ≤ size < 2 ^ 53
      ∧ 2 * Z.abs (size * 512 * 100 - size_gb d * 1024 ^ 3) ≤ 1024 ^ 3
      ∧ (2 * Z.abs (size * 512 * 100 - size_gb d * 1024 ^ 3) = 1024 ^ 3
         → Z.even (size_gb d) = true).
Proof.
  intros d.
  assert (sectors_in_range two_disks) as Hrange
    by (apply Forall_forall; intros e He; cbn in He;
        rewrite !elem_of_cons, elem_of_nil in He;
        destruct He as [->|[->|[]]]; intros size [= <-]; lia).
  assert (d ∈ Prod.detect_devices two_disks) as Hd
    by (vm_compute; by left).
  split; [exact Hrange|]. split; [exact Hd|].
  exact (detect_devices_size_gb two_disks d Hrange Hd).
Defined.

(** The catalog holds at most one entry for each entry of [/sys/block],
    under the name of that entry and in the same order. *)
Lemma detect_devices_names (fs : sysfs) :
  name <$> Prod.detect_devices fs `sublist_of` be_name <$> sys_block fs.
Proof.
  unfold Prod.detect_devices.
  induction (sys_block fs) as [|e l IH]; [done|].
  cbn [omap list_omap fmap list_fmap].
  destruct (Prod.detect_entry fs e) as [d|] eqn:Hd.
  - destruct (detect_entry_size_gb fs e d Hd) as [-> _].
    by apply sublist_skip.
  - by apply sublist_cons.
Qed.

(** When the entries of [/sys/block] have distinct names, so have the
    devices of the catalog: no device is catalogued twice. *)
Lemma detect_devices_names_NoDup (fs : sysfs) :
  NoDup (be_name <$> sys_block fs) → NoDup (name <$> Prod.detect_devices fs).
Proof. intros H. exact (sublist_NoDup _ _ H (detect_devices_names fs)). Qed.

(** C7, the code at the failing inputs: a card with a link in
    [/dev/disk/by-id] is recorded under its kernel name [/dev/sda],
    whether the name of the link ends in [sda] (the link is found and
    then resolved) or not (the link is not found). *)
Theorem detect_devices_records_kernel_name :
  Prod.detect_devices linked_by_name
    = [Dev "/dev/sda" "sda" 2972 "Ultra" None]
  ∧ Prod.detect_devices linked_by_serial
    = [Dev "/dev/sda" "sda" 2972 "Ultra" None].
Proof. split; reflexivity. Qed.

(** ** The executor *)

(** The production path checks the exit status of its copy process: when
    [dd] exits with a status other than 0, [clone_device] raises. *)
Lemma clone_device_nonzero_raises
    (h : host) (w : world) (source dest : dev) (rc : Z) :
  (∀ hist, answer h hist (Run (ProdExec.dd_cmd source dest)) = Exit rc) →
  rc ≠ 0 →
  (ProdExec.clone_device source dest h w).1
  = Raise (CalledProcessError rc (ProdExec.dd_cmd source dest)).
Proof.
  intros Hdd Hrc. unfold ProdExec.clone_device, try_except.
  destruct (prod_led_off_all_succeeds h w) as ([] & w1 & H1 & _).
  destruct (prod_output_succeeds h LED_CLONING HIGH w1) as ([] & w2 & H2 & _).
  rewrite (bind_Ok _ _ _ _ _ _ H1).
  unfold ProdExec.led_on. rewrite (bind_Ok _ _ _ _ _ _ H2).
  rewrite (bind_Ok _ _ _ _ _ _ (popen_wait_exit _ h w2 rc (Hdd _))).
  rewrite bool_decide_eq_true_2 by done.
  erewrite (bind_Raise (throw _)) by reflexivity.
  match goal with
  | |- context [ProdExec.error_pattern ≫= ?f] =>
      match goal with
      | |- context [(_ ≫= f) ?h ?w] =>
          destruct (prod_error_pattern_succeeds h w) as ([] & w3 & H3 & _);
          rewrite (bind_Ok _ f _ _ _ _ H3)
      end
  end.
  reflexivity.
Qed.

(** C2, the code at the failing input: the source is not mounted, both
    mounts succeed and [rsync] cannot be started.  [clone_filesystem]
    raises, its [finally] unmounts the destination only, and
    [/mnt/temp_source] is still mounted when the call returns: two mounts
    were done, one was undone. *)
Theorem clone_filesystem_leaves_source_mounted :
  let r := MockExec.clone_filesystem "/dev/sdc1" "/dev/sdd1" "ext4"
             host_no_rsync (World ∅ []) in
  r.1 = Raise (OSError (Run (MockExec.rsync_cmd "/mnt/temp_source/")))
  ∧ mounted (history r.2) = ["/mnt/temp_source"]
  ∧ mount_calls (history r.2) = 2%nat
  ∧ umount_calls (history r.2) = 1%nat.
Proof. vm_compute. repeat split. Qed.

(** C3, the code at the failing input: [rsync] exits with status 23.
    [clone_filesystem] returns normally, and [start_clone], on the path
    that runs the processes, lights the Done LED after that exit. *)
Theorem rsync_failure_reported_as_success :
  let w := at_world (MockExec.start host_rsync_23) in
  let failed := Called (Run (MockExec.rsync_cmd "/mnt/temp_source/")) (Exit 23) in
  let r := MockExec.clone_filesystem "/dev/sdc1" "/dev/sdd1" "ext4"
             host_rsync_23 w in
  let r' := MockExec.start_clone false "/dev/sdc" "/dev/sdd"
              host_rsync_23 w in
  r.1 = Ok () ∧ failed ∈ history r.2
  ∧ r'.1 = Ok ()
  ∧ ∃ before after,
      history r'.2 = (before ++ [failed] ++ after)%list
      ∧ Output LED_DONE HIGH ∈ after.
Proof.
  intros w failed r r'.
  split; [reflexivity|].
  split; [vm_compute; repeat first [by left | right]|].
  split; [reflexivity|].
  exists (take 14 (history r'.2)), (drop 15 (history r'.2)).
  split; [vm_compute; reflexivity|].
  vm_compute. repeat first [by left | right].
Qed.

(** ** The indicators *)

(** C9, the code at the failing inputs.  Production: after a clone that
    succeeds and the release of the button, the blinking lights the Ready
    LED while the Done LED is still lit.  Mock: [start_clone] lights the
    Cloning LED while the Ready LED of the detection is still lit. *)
Theorem indicators_overlap :
  (let p := pins (at_world (ProdExec.main_loop host_ok
                   [held two_disks; released two_disks;
                    released two_disks])) in
   lit p LED_DONE = true ∧ lit p LED_READY = true)
  ∧ (let hist := history (at_world (MockExec.main_loop TEST_MODE host_ok
                            [held two_disks])) in
     let p := pins_after MockExec.setup (take 10 hist) in
     lit p LED_READY = true ∧ lit p LED_CLONING = true).
Proof. vm_compute. repeat split. Qed.

(** ** The main loop *)













(** * Further properties of the code *)

(** ** Classification, continued *)

Lemma identify_source_dest_short (devices : list dev) :
  (length devices < 2)%nat →
  Prod.identify_source_dest devices = None
  ∧ Mock.identify_source_dest devices = None.
Proof.
  intros Hlt. unfold Prod.identify_source_dest, Mock.identify_source_dest.
  by destruct (Nat.ltb_spec (length devices) 2); [|lia].
Qed.

(** [identify_source_dest] answers [(None, None)] exactly on fewer than two
    devices, in both variants. *)
Theorem identify_source_dest_None_iff (devices : list dev) :
  (Prod.identify_source_dest devices = None ↔ (length devices < 2)%nat)
  ∧ (Mock.identify_source_dest devices = None ↔ (length devices < 2)%nat).
Proof.
  destruct (Nat.ltb_spec (length devices) 2) as [Hlt|Hge].
  - unfold Prod.identify_source_dest, Mock.identify_source_dest.
    destruct (Nat.ltb_spec (length devices) 2); [done|lia].
  - destruct (sorted_ends devices Hge) as (s & d & Hs & Hd & _).
    destruct (identify_source_dest_ends devices s d Hge Hs Hd) as [-> ->].
    split; split; first [done | lia].
Qed.

(** In the production variant a pair that [identify_source_dest] returns
    always passes [validate_clone], whatever the sizes, equal ones
    included: its source has the least size of the list and its
    destination the greatest. *)
Theorem identified_pair_validates (devices : list dev) (s d : dev) :
  Prod.identify_source_dest devices = Some (s, d) →
  smallest devices s ∧ largest devices d
  ∧ Prod.validate_clone s d = true.
Proof.
  intros Hid.
  destruct (Nat.ltb_spec (length devices) 2) as [Hlt|Hge].
  { apply identify_source_dest_short in Hlt as [Hnone _].
    by rewrite Hnone in Hid. }
  destruct (sorted_ends devices Hge) as (s' & d' & Hs & Hd & Hmin & Hmax).
  destruct (identify_source_dest_ends devices s' d' Hge Hs Hd) as [HP _].
  rewrite HP in Hid. injection Hid as <- <-.
  split; [done|]. split; [done|].
  unfold Prod.validate_clone.
  destruct Hmax as [Hin Hle]. destruct Hmin as [Hin' _].
  specialize (Hle _ Hin').
  destruct (Z.gtb_spec (size_gb s') (size_gb d')); [lia|done].
Qed.

Lemma identified_pair_validates_witness :
  let a := Dev "/dev/sda" "sda" 3200 "A" None in
  let b := Dev "/dev/sdb" "sdb" 3200 "B" None in
  Prod.identify_source_dest [a; b] = Some (a, b)
  ∧ smallest [a; b] a ∧ largest [a; b] b
  ∧ Prod.validate_clone a b = true.
Proof.
  intros a b.
  assert (Prod.identify_source_dest [a; b] = Some (a, b)) as Hid
    by reflexivity.
  split; [exact Hid|].
  exact (identified_pair_validates [a; b] a b Hid).
Defined.

Lemma sorted_of_sorted (l : list dev) :
  StronglySorted by_size l → sorted l = l.
Proof.
  induction 1 as [|x l Hl IH Hx]; [done|].
  simpl. rewrite IH. destruct l as [|y l']; [done|].
  simpl. apply Forall_cons in Hx as [Hxy _]. unfold by_size in Hxy.
  by destruct (Z.leb_spec (size_gb x) (size_gb y)); [|lia].
Qed.

(** On a list that is already in non-decreasing order of size, ties
    included, the sort changes nothing: the source is the first device of
    the list and the destination is the last one.  With two cards of the
    same size, the one enumerated first is the source. *)
Theorem identify_source_dest_in_order (a b : dev) (mid : list dev) :
  StronglySorted by_size (a :: mid ++ [b]) →
  Prod.identify_source_dest (a :: mid ++ [b]) = Some (a, b)
  ∧ Mock.identify_source_dest (a :: mid ++ [b]) = Some (device a, device b).
Proof.
  intros Hs. apply identify_source_dest_ends.
  - simpl. rewrite length_app. simpl. lia.
  - by rewrite (sorted_of_sorted _ Hs).
  - rewrite (sorted_of_sorted _ Hs). unfold final.
    change (a :: mid ++ [b])%list with ((a :: mid) ++ [b])%list.
    apply last_snoc.
Qed.

Lemma identify_source_dest_in_order_witness :
  let a := Dev "/dev/sda" "sda" 3200 "A" None in
  let b := Dev "/dev/sdb" "sdb" 3200 "B" None in
  StronglySorted by_size (a :: [] ++ [b])
  ∧ Prod.identify_source_dest (a :: [] ++ [b]) = Some (a, b)
  ∧ Mock.identify_source_dest (a :: [] ++ [b])
    = Some (device a, device b).
Proof.
  intros a b.
  assert (StronglySorted by_size (a :: [] ++ [b])) as Hs.
  { repeat constructor. unfold by_size. simpl. lia. }
  split; [exact Hs|].
  exact (identify_source_dest_in_order a b [] Hs).
Defined.

(** In the mock variant a verdict of [True] means that both devices are
    present and that the source is not larger than the destination; the
    message is then "OK". *)
Theorem mock_validate_clone_true
    (bd : Mock.blockdev) (source dest : option string) :
  (Mock.validate_clone bd source dest).1 = true →
  ∃ src dst,
    source = Some src ∧ dest = Some dst ∧ src ≠ "" ∧ dst ≠ ""
    ∧ Mock.get_device_size bd src ≤ Mock.get_device_size bd dst
    ∧ Mock.validate_clone bd source dest = (true, "OK").
Proof.
  unfold Mock.validate_clone.
  destruct source as [src|], dest as [dst|]; simpl;
    try (rewrite ?orb_true_r; simpl; discriminate).
  destruct (String.eqb_spec src "") as [->|Hs]; [simpl; discriminate|].
  destruct (String.eqb_spec dst "") as [->|Hd]; [simpl; discriminate|].
  simpl.
  destruct (Z.ltb_spec (Mock.get_device_size bd dst)
                       (Mock.get_device_size bd src)); [simpl; discriminate|].
  intros _. by exists src, dst.
Qed.

Lemma mock_validate_clone_true_witness :
  let bd : Mock.blockdev := λ _, Some 1000 in
  (Mock.validate_clone bd (Some "/dev/sdc") (Some "/dev/sdd")).1 = true
  ∧ ∃ src dst,
      Some "/dev/sdc" = Some src ∧ Some "/dev/sdd" = Some dst
      ∧ src ≠ "" ∧ dst ≠ ""
      ∧ Mock.get_device_size bd src ≤ Mock.get_device_size bd dst
      ∧ Mock.validate_clone bd (Some "/dev/sdc") (Some "/dev/sdd")
        = (true, "OK").
Proof.
  intros bd.
  assert ((Mock.validate_clone bd (Some "/dev/sdc") (Some "/dev/sdd")).1
          = true) as Hv by reflexivity.
  split; [exact Hv|].
  exact (mock_validate_clone_true bd _ _ Hv).
Defined.

(** ** The catalog, continued *)

(** The catalog never holds a loop device, a RAM disk or the boot card
    [mmcblk0], and every entry of it is a directory of [/sys/block] whose
    size could be read. *)
Theorem detect_devices_exclusions (fs : sysfs) (d : dev) :
  d ∈ Prod.detect_devices fs →
  startswith (name d) "loop" = false
  ∧ startswith (name d) "ram" = false
  ∧ startswith (name d) "mmcblk0" = false
  ∧ ∃ e, e ∈ sys_block fs ∧ be_name e = name d
         ∧ be_is_dir e = true ∧ is_Some (size_text e).
Proof.
  unfold Prod.detect_devices. intros (e & He & Hd)%list_elem_of_omap.
  destruct (detect_entry_size_gb fs e d Hd) as (Hn & size & Hs & _).
  revert Hd. unfold Prod.detect_entry. rewrite Hn.
  destruct (be_is_dir e) eqn:Hdir; [|done].
  destruct (startswith (name d) "loop"); [done|].
  destruct (startswith (name d) "ram"); [done|].
  destruct (startswith (name d) "mmcblk0"); [done|].
  intros _. repeat split; try done.
  exists e. rewrite Hs. by repeat split.
Qed.

Lemma detect_devices_exclusions_witness :
  let d := Dev "/dev/sda" "sda" 2972 "Ultra" None in
  d ∈ Prod.detect_devices with_pseudo_devices
  ∧ Prod.detect_devices with_pseudo_devices = [d]
  ∧ startswith (name d) "loop" = false
  ∧ startswith (name d) "ram" = false
  ∧ startswith (name d) "mmcblk0" = false
  ∧ ∃ e, e ∈ sys_block with_pseudo_devices ∧ be_name e = name d
         ∧ be_is_dir e = true ∧ is_Some (size_text e).
Proof.
  intros d.
  assert (d ∈ Prod.detect_devices with_pseudo_devices) as Hd
    by (vm_compute; by left).
  split; [exact Hd|]. split; [reflexivity|].
  exact (detect_devices_exclusions with_pseudo_devices d Hd).
Defined.

(** The scan fails softly: an entry whose size cannot be read, or whose
    model file cannot be read, is skipped, and the devices before and
    after it are catalogued as if it were not there. *)
Theorem detect_devices_skips_unreadable
    (links : list (string * string)) (before after : list block_entry)
    (e : block_entry) :
  size_text e = None ∨ model_text e = Some None →
  Prod.detect_devices (Sysfs (before ++ e :: after) links)
  = Prod.detect_devices (Sysfs (before ++ after) links).
Proof.
  intros He. unfold Prod.detect_devices. cbn [sys_block].
  change (Prod.detect_entry (Sysfs (before ++ e :: after) links))
    with (Prod.detect_entry (Sysfs (before ++ after) links)).
  rewrite !omap_app. f_equal. cbn [omap list_omap].
  assert (Prod.detect_entry (Sysfs (before ++ after) links) e = None) as ->;
    [|done].
  unfold Prod.detect_entry.
  destruct (negb _ || _ || _); [done|].
  destruct (startswith _ _); [done|].
  destruct He as [-> | Hm]; [done|].
  rewrite Hm. by destruct (size_text e).
Qed.

Lemma detect_devices_skips_unreadable_witness :
  let a := BlockEntry "sda" true (Some 62333952) None in
  let b := BlockEntry "sdb" true (Some 1953525168) None in
  (size_text unreadable_disk = None
   ∨ model_text unreadable_disk = Some None)
  ∧ Prod.detect_devices (Sysfs ([a] ++ unreadable_disk :: [b]) [])
    = Prod.detect_devices (Sysfs ([a] ++ [b]) []).
Proof.
  intros a b.
  assert (size_text unreadable_disk = None
          ∨ model_text unreadable_disk = Some None) as He by (by left).
  split; [exact He|].
  exact (detect_devices_skips_unreadable [] [a] [b] unreadable_disk He).
Defined.

(** ** The strategy, continued *)

(** The dictionary [mkfs_cmd] of [clone_filesystem] has a command exactly
    for the types that [clone_with_rsync] sends to [clone_filesystem]: no
    partition is copied file by file onto a partition that was not
    formatted first, and no formatting command is unused. *)
Theorem mkfs_cmd_defined_iff (dest fstype : string) :
  is_Some (MockExec.mkfs_cmd dest fstype)
  ↔ MockExec.filesystem_aware fstype = true.
Proof.
  unfold MockExec.mkfs_cmd, MockExec.filesystem_aware.
  rewrite bool_decide_eq_true, !elem_of_cons, elem_of_nil.
  destruct (String.eqb_spec fstype "ext4");
    [split; [intros _; tauto|intros _; by eexists]|].
  destruct (String.eqb_spec fstype "vfat");
    [split; [intros _; tauto|intros _; by eexists]|].
  destruct (String.eqb_spec fstype "fat32");
    [split; [intros _; tauto|intros _; by eexists]|].
  destruct (String.eqb_spec fstype "ntfs");
    [split; [intros _; tauto|intros _; by eexists]|].
  destruct (String.eqb_spec fstype "exfat");
    [split; [intros _; tauto|intros _; by eexists]|].
  split; [by intros [? ?]|tauto].
Qed.

(** ** The LEDs *)

Lemma lit_insert (p : gmap Z bool) (pin q : Z) (v : bool) :
  lit (<[pin := v]> p) q = if decide (pin = q) then v else lit p q.
Proof.
  unfold lit. destruct (decide (pin = q)) as [->|Hne].
  - rewrite lookup_insert_eq. destruct v; by compute.
  - by rewrite lookup_insert_ne.
Qed.

Lemma prod_output_eq (pin : Z) (v : bool) (h : host) (w : world) :
  ProdExec.output pin v h w
  = (Ok (), World (<[pin := v]> (pins w)) (history w ++ [Output pin v])).
Proof. reflexivity. Qed.

(** [GPIOMock.output] writes [LOW]: the pin is not lit afterwards, set up
    or not; the other pins are as before. *)
Lemma mock_output_low_lit (pin q : Z) (h : host) (w : world) :
  lit (pins (MockExec.output pin LOW h w).2) q
  = if decide (pin = q) then false else lit (pins w) q.
Proof.
  unfold MockExec.output.
  destruct (bool_decide (is_Some (pins w !! pin))) eqn:Hp; simpl.
  - apply lit_insert.
  - destruct (decide (pin = q)) as [<-|]; [|done].
    apply bool_decide_eq_false in Hp. unfold lit.
    apply bool_decide_eq_false. intros Hq. apply Hp. by eexists.
Qed.

Lemma prod_led_off_all_eq (h : host) (w : world) :
  ProdExec.led_off_all h w
  = (Ok (),
     World (<[LED_DONE := LOW]> (<[LED_CLONING := LOW]>
              (<[LED_READY := LOW]> (pins w))))
           (history w ++ [Output LED_READY LOW; Output LED_CLONING LOW;
                          Output LED_DONE LOW])).
Proof.
  unfold ProdExec.led_off_all, ProdExec.led_off, mbind, exec_bind.
  rewrite !prod_output_eq. cbn [pins history].
  by rewrite <- !app_assoc.
Qed.

Lemma leds_off_after_clear (p : gmap Z bool) :
  leds_off (<[LED_DONE := LOW]> (<[LED_CLONING := LOW]>
              (<[LED_READY := LOW]> p))).
Proof. unfold leds_off. rewrite !lit_insert. by compute. Qed.

Lemma mock_led_off_all_off (h : host) (w : world) :
  ∃ w', MockExec.led_off_all h w = (Ok (), w') ∧ leds_off (pins w')
        ∧ filter (λ e, is_called e = true) (history w')
          = filter (λ e, is_called e = true) (history w).
Proof.
  unfold MockExec.led_off_all, mbind, exec_bind.
  pose proof (mock_output_low_lit LED_READY) as H1.
  pose proof (mock_output_low_lit LED_CLONING) as H2.
  pose proof (mock_output_low_lit LED_DONE) as H3.
  assert (∀ pin v w0, ∃ w1, MockExec.output pin v h w0 = (Ok (), w1)
            ∧ filter (λ e, is_called e = true) (history w1)
              = filter (λ e, is_called e = true) (history w0)) as Hout.
  { intros pin v w0. unfold MockExec.output.
    destruct (bool_decide _); eexists; (split; [reflexivity|]); [|done].
    cbn [history]. rewrite filter_app. cbn. by rewrite app_nil_r. }
  destruct (Hout LED_READY LOW w) as (w1 & E1 & C1).
  destruct (Hout LED_CLONING LOW w1) as (w2 & E2 & C2).
  destruct (Hout LED_DONE LOW w2) as (w3 & E3 & C3).
  specialize (H1 LED_READY h w) as H1r.
  rewrite E1 in H1r |- *. cbn [snd] in H1r.
  pose proof (H2 LED_READY h w1) as H2r. pose proof (H2 LED_CLONING h w1) as H2c.
  rewrite E2 in H2r, H2c |- *. cbn [snd] in H2r, H2c.
  pose proof (H3 LED_READY h w2) as H3r.
  pose proof (H3 LED_CLONING h w2) as H3c.
  pose proof (H3 LED_DONE h w2) as H3d.
  rewrite E3 in H3r, H3c, H3d |- *. cbn [snd] in H3r, H3c, H3d.
  exists w3. split; [done|]. split; [|congruence].
  unfold leds_off. rewrite H3r, H3c, H3d, H2r, H2c, H1r. by compute.
Qed.

Lemma prod_blink_ready_others (h : host) (w : world) (pin : Z) :
  pin ≠ LED_READY →
  lit (pins (ProdExec.blink_ready h w).2) pin = lit (pins w) pin.
Proof.
  intros Hpin.
  unfold ProdExec.blink_ready, ProdExec.input, ProdExec.led_on,
    ProdExec.led_off, mbind, exec_bind.
  destruct (negb (default LOW (pins w !! LED_READY)));
    rewrite prod_output_eq; cbn [snd pins]; rewrite lit_insert;
    by rewrite decide_False.
Qed.

(** [blink_ready] of the production variant toggles the Ready LED and
    leaves the two other LEDs as they are.  The one of the mock variant
    always turns the Ready LED off: [GPIOMock.input] reads [HIGH] on every
    LED pin, so the level written is always [LOW]. *)
Theorem blink_ready_effect (h : host) (w : world) :
  (let p := pins (ProdExec.blink_ready h w).2 in
   lit p LED_READY = negb (lit (pins w) LED_READY)
   ∧ lit p LED_CLONING = lit (pins w) LED_CLONING
   ∧ lit p LED_DONE = lit (pins w) LED_DONE)
  ∧ (let p := pins (MockExec.blink_ready h w).2 in
     lit p LED_READY = false
     ∧ lit p LED_CLONING = lit (pins w) LED_CLONING
     ∧ lit p LED_DONE = lit (pins w) LED_DONE).
Proof.
  split.
  - unfold ProdExec.blink_ready, ProdExec.input, ProdExec.led_on,
      ProdExec.led_off, mbind, exec_bind.
    assert (lit (pins w) LED_READY = default LOW (pins w !! LED_READY))
      as Hlit.
    { unfold lit. by destruct (pins w !! LED_READY) as [[]|]. }
    rewrite Hlit.
    destruct (default LOW (pins w !! LED_READY));
      cbn [negb]; rewrite prod_output_eq; cbn [snd pins];
      rewrite !lit_insert; by compute.
  - unfold MockExec.blink_ready, MockExec.input.
    rewrite (bind_Ok (mret HIGH) _ h w HIGH w) by reflexivity.
    change (negb HIGH) with LOW.
    rewrite !mock_output_low_lit. by compute.
Qed.

(** [start_clone] of the mock variant always ends with the three LEDs
    off, whether the clone succeeds, fails, or the log cannot be
    written. *)
Theorem mock_start_clone_leds_off
    (test_mode : bool) (source dest : string) (h : host) (w : world) :
  leds_off (pins (MockExec.start_clone test_mode source dest h w).2).
Proof.
  unfold MockExec.start_clone.
  destruct (mock_output_succeeds h LED_CLONING HIGH w) as ([] & w1 & E1 & _).
  rewrite (bind_Ok _ _ _ _ _ _ E1).
  destruct (mock_output_succeeds h LED_READY LOW w1) as ([] & w2 & E2 & _).
  rewrite (bind_Ok _ _ _ _ _ _ E2).
  unfold try_finally.
  match goal with
  | |- context [try_except ?m ?k h w2] =>
      destruct (try_except m k h w2) as [r w3]
  end.
  destruct (mock_led_off_all_off h w3) as (w4 & E4 & Hoff & _).
  rewrite E4. by destruct r.
Qed.

(** ** Computations that only drive the LEDs *)

Section quiet.
Context (h : host).

Lemma quiet_ret {A} (a : A) : quiet h (mret a).
Proof. intros w. by exists a, w. Qed.

Lemma quiet_bind {A B} (m : exec A) (f : A → exec B) :
  quiet h m → (∀ a, quiet h (f a)) → quiet h (m ≫= f).
Proof.
  intros Hm Hf w. destruct (Hm w) as (a & w1 & E1 & C1).
  destruct (Hf a w1) as (b & w2 & E2 & C2).
  exists b, w2. rewrite (bind_Ok _ _ _ _ _ _ E1). split; [done|congruence].
Qed.

Lemma quiet_prod_output pin v : quiet h (ProdExec.output pin v).
Proof.
  intros w. eexists _, _. split; [reflexivity|].
  cbn [history]. rewrite filter_app. cbn. by rewrite app_nil_r.
Qed.

Lemma quiet_mock_output pin v : quiet h (MockExec.output pin v).
Proof.
  intros w. unfold MockExec.output.
  destruct (bool_decide _); eexists _, _; (split; [reflexivity|]); [|done].
  cbn [history]. rewrite filter_app. cbn. by rewrite app_nil_r.
Qed.

Lemma quiet_repeat_exec n (m : exec unit) :
  quiet h m → quiet h (repeat_exec n m).
Proof.
  intros Hm. induction n as [|n IH]; simpl.
  - apply quiet_ret.
  - by apply quiet_bind.
Qed.

Lemma quiet_prod_led_off_all : quiet h ProdExec.led_off_all.
Proof.
  do 2 (apply quiet_bind; [apply quiet_prod_output|intros _]).
  apply quiet_prod_output.
Qed.

Lemma quiet_mock_led_off_all : quiet h MockExec.led_off_all.
Proof.
  do 2 (apply quiet_bind; [apply quiet_mock_output|intros _]).
  apply quiet_mock_output.
Qed.

Lemma quiet_mock_error_pattern : quiet h MockExec.error_pattern.
Proof.
  apply quiet_repeat_exec, quiet_bind; intros; apply quiet_mock_output.
Qed.

(** [error_pattern] of the production variant makes no call and ends with
    the three LEDs off. *)
Lemma prod_error_pattern_off (w : world) :
  ∃ w', ProdExec.error_pattern h w = (Ok (), w') ∧ leds_off (pins w')
        ∧ filter (λ e, is_called e = true) (history w')
          = filter (λ e, is_called e = true) (history w).
Proof.
  unfold ProdExec.error_pattern.
  assert (quiet h (repeat_exec 5
            (ProdExec.led_off_all;; ProdExec.led_on LED_READY))) as Hq.
  { apply quiet_repeat_exec, quiet_bind;
      [apply quiet_prod_led_off_all|intros; apply quiet_prod_output]. }
  destruct (Hq w) as ([] & w1 & E1 & C1).
  rewrite (bind_Ok _ _ _ _ _ _ E1), prod_led_off_all_eq.
  eexists. split; [reflexivity|]. split; [apply leds_off_after_clear|].
  cbn [history]. rewrite filter_app, C1. cbn. by rewrite app_nil_r.
Qed.

End quiet.

Lemma popen_wait_fails (argv : list string) (h : host) (w : world) :
  answer h (history w) (Run argv) = Fails →
  popen_wait argv h w
  = (Raise (OSError (Run argv)),
     World (pins w) (history w ++ [Called (Run argv) Fails])).
Proof.
  intros Hrc. unfold popen_wait, perform, mbind, exec_bind. by rewrite Hrc.
Qed.

Lemma os_call_outcome (c : call) (h : host) (w : world) :
  os_call c h w
  = (match answer h (history w) c with
     | Exit _ => Ok ()
     | Fails => Raise (OSError c)
     end,
     World (pins w) (history w ++ [Called c (answer h (history w) c)])).
Proof.
  unfold os_call, perform, mbind, exec_bind.
  by destruct (answer h (history w) c).
Qed.

(** ** The production clone *)

(** The world in which [clone_device] starts [dd]: all LEDs cleared, then
    the Cloning LED lit. *)
Lemma clone_device_prelude (h : host) (w : world) :
  (ProdExec.led_off_all;; ProdExec.led_on LED_CLONING) h w
  = (Ok (),
     World (<[LED_CLONING := HIGH]> (<[LED_DONE := LOW]>
              (<[LED_CLONING := LOW]> (<[LED_READY := LOW]> (pins w)))))
           (history w ++ [Output LED_READY LOW; Output LED_CLONING LOW;
                          Output LED_DONE LOW; Output LED_CLONING HIGH])).
Proof.
  rewrite (bind_Ok _ _ _ _ _ _ (prod_led_off_all_eq h w)).
  unfold ProdExec.led_on. rewrite prod_output_eq. cbn [pins history].
  by rewrite <- app_assoc.
Qed.

Lemma clone_device_handler (h : host) (w : world) (e : exn) :
  ∃ w', (ProdExec.error_pattern;; @throw unit e) h w = (Raise e, w')
        ∧ leds_off (pins w')
        ∧ filter (λ e, is_called e = true) (history w')
          = filter (λ e, is_called e = true) (history w).
Proof.
  destruct (prod_error_pattern_off h w) as (w' & E & Hoff & Hc).
  exists w'. by rewrite (bind_Ok _ _ _ _ _ _ E).
Qed.

Lemma clone_device_run (h : host) (w : world) (source dest : dev) :
  let dd := ProdExec.dd_cmd source dest in
  let w2 :=
    World (<[LED_CLONING := HIGH]> (<[LED_DONE := LOW]>
             (<[LED_CLONING := LOW]> (<[LED_READY := LOW]> (pins w)))))
          (history w ++ [Output LED_READY LOW; Output LED_CLONING LOW;
                         Output LED_DONE LOW; Output LED_CLONING HIGH]) in
  let w3 := World (pins w2) (history w2 ++ [Called (Run dd) (Exit 0)]) in
  (∃ o, answer h (history w2) (Run dd) = Exit 0
        ∧ answer h (history w3) Sync = Exit o
        ∧ ProdExec.clone_device source dest h w
          = (Ok (),
             World (<[LED_DONE := HIGH]> (<[LED_CLONING := LOW]> (pins w2)))
                   (history w3 ++ [Called Sync (Exit o);
                                   Output LED_CLONING LOW;
                                   Output LED_DONE HIGH])))
  ∨ (∃ e w', ProdExec.clone_device source dest h w = (Raise e, w')
             ∧ leds_off (pins w')
             ∧ (answer h (history w2) (Run dd) ≠ Exit 0
                ∨ answer h (history w3) Sync = Fails)).
Proof.
  intros dd w2 w3. unfold ProdExec.clone_device, try_except.
  assert (∀ {B} (k : exec B),
            (ProdExec.led_off_all;; ProdExec.led_on LED_CLONING;; k) h w
            = k h w2) as Hpre.
  { intros B k.
    pose proof (clone_device_prelude h w) as Hp.
    unfold mbind, exec_bind in Hp |- *.
    destruct (ProdExec.led_off_all h w) as [[[]|e] w1]; [|done].
    by rewrite Hp. }
  rewrite Hpre. fold dd.
  destruct (answer h (history w2) (Run dd)) as [rc|] eqn:Hdd.
  - rewrite (bind_Ok _ _ _ _ _ _ (popen_wait_exit dd h w2 rc Hdd)).
    destruct (decide (rc = 0)) as [->|Hrc].
    + rewrite bool_decide_eq_false_2 by (intros H; by apply H).
      rewrite (bind_Ok (mret ()) _ _ _ () _) by reflexivity.
      fold w3.
      destruct (answer h (history w3) Sync) as [o|] eqn:Hs.
      * assert (os_call Sync h w3
                = (Ok (), World (pins w3)
                            (history w3 ++ [Called Sync (Exit o)]))) as E
          by (by rewrite os_call_outcome, Hs).
        rewrite (bind_Ok _ _ _ _ _ _ E).
        unfold ProdExec.led_off, ProdExec.led_on.
        rewrite (bind_Ok _ _ _ _ _ _ (prod_output_eq _ _ _ _)).
        rewrite prod_output_eq. cbn [pins history].
        left. exists o. repeat split. by rewrite <- !app_assoc.
      * assert (os_call Sync h w3
                = (Raise (OSError Sync),
                   World (pins w3) (history w3 ++ [Called Sync Fails]))) as E
          by (by rewrite os_call_outcome, Hs).
        rewrite (bind_Raise _ _ _ _ _ _ E).
        match goal with
        | |- context [(ProdExec.error_pattern ≫= _) h ?w0] =>
            destruct (clone_device_handler h w0 (OSError Sync))
              as (w' & E' & Hoff & _)
        end.
        right. exists (OSError Sync), w'. rewrite E'.
        split; [done|]. split; [done|]. by right.
    + rewrite bool_decide_eq_true_2 by done.
      rewrite (bind_Raise (throw _) _ _ _ _ _) by reflexivity.
      match goal with
      | |- context [(ProdExec.error_pattern ≫= _) h ?w0] =>
          destruct (clone_device_handler h w0
                      (CalledProcessError rc dd)) as (w' & E' & Hoff & _)
      end.
      right. eexists _, w'. rewrite E'.
      split; [done|]. split; [done|]. left. intros [= ?]. done.
  - rewrite (bind_Raise _ _ _ _ _ _ (popen_wait_fails dd h w2 Hdd)).
    match goal with
    | |- context [(ProdExec.error_pattern ≫= _) h ?w0] =>
        destruct (clone_device_handler h w0 (OSError (Run dd)))
          as (w' & E' & Hoff & _)
    end.
    right. eexists _, w'. rewrite E'.
    split; [done|]. split; [done|]. by left.
Qed.

(** [clone_device] ends in one of two LED states, on every host: when it
    returns normally the Done LED alone is lit; when it raises, the three
    LEDs are off. *)
Theorem clone_device_leds (h : host) (w : world) (source dest : dev) :
  let r := ProdExec.clone_device source dest h w in
  match r.1 with
  | Ok _ =>
      lit (pins r.2) LED_DONE = true
      ∧ lit (pins r.2) LED_READY = false
      ∧ lit (pins r.2) LED_CLONING = false
  | Raise _ => leds_off (pins r.2)
  end.
Proof.
  destruct (clone_device_run h w source dest)
    as [(o & _ & _ & E) | (e & w' & E & Hoff & _)]; simpl; rewrite E; simpl.
  - rewrite !lit_insert. by compute.
  - done.
Qed.

(** [clone_device] reports success only after [dd] has exited with status
    0 and [os.sync()] has been called: when it returns normally, the
    events it added, the appends to the log file aside, are in this order
    the clearing of the LEDs, the Cloning LED, the [dd] process with exit
    status 0, the sync, and then the Done LED. *)
Theorem clone_device_success_trace
    (h : host) (w : world) (source dest : dev) :
  (ProdExec.clone_device source dest h w).1 = Ok () →
  ∃ o evs,
    history (ProdExec.clone_device source dest h w).2
    = (history w ++ evs)%list
    ∧ filter (λ e, is_append e = false) evs
      = [Output LED_READY LOW; Output LED_CLONING LOW;
         Output LED_DONE LOW; Output LED_CLONING HIGH;
         Called (Run (ProdExec.dd_cmd source dest)) (Exit 0);
         Called Sync (Exit o);
         Output LED_CLONING LOW; Output LED_DONE HIGH].
Proof.
  destruct (clone_device_run h w source dest)
    as [(o & _ & _ & E) | (e & w' & E & _)]; rewrite E; [|done].
  intros _. exists o. eexists. cbn [snd history].
  split; [by rewrite <- !app_assoc|]. reflexivity.
Qed.

Lemma clone_device_success_trace_witness :
  let a := Dev "/dev/sda" "sda" 2972 "Ultra" None in
  let b := Dev "/dev/sdb" "sdb" 93151 "Unknown" None in
  let w := World ProdExec.setup_gpio [] in
  (ProdExec.clone_device a b host_ok w).1 = Ok ()
  ∧ ∃ o evs,
      history (ProdExec.clone_device a b host_ok w).2
      = (history w ++ evs)%list
      ∧ filter (λ e, is_append e = false) evs
        = [Output LED_READY LOW; Output LED_CLONING LOW;
           Output LED_DONE LOW; Output LED_CLONING HIGH;
           Called (Run (ProdExec.dd_cmd a b)) (Exit 0);
           Called Sync (Exit o);
           Output LED_CLONING LOW; Output LED_DONE HIGH].
Proof.
  intros a b w.
  assert ((ProdExec.clone_device a b host_ok w).1 = Ok ()) as Hok
    by reflexivity.
  split; [exact Hok|].
  exact (clone_device_success_trace host_ok w a b Hok).
Defined.

(** ** A press of the button, production variant *)

Lemma prod_pressed_prelude (h : host) (w : world) :
  ∃ w2, (ProdExec.led_off_all;; ProdExec.led_on LED_READY) h w = (Ok (), w2)
        ∧ filter (λ e, is_called e = true) (history w2)
          = filter (λ e, is_called e = true) (history w).
Proof.
  assert (quiet h (ProdExec.led_off_all;; ProdExec.led_on LED_READY)) as Hq.
  { apply quiet_bind; [apply quiet_prod_led_off_all|].
    intros _. apply quiet_prod_output. }
  destruct (Hq w) as ([] & w2 & E & C). by exists w2.
Qed.

Lemma prod_error_continue (h : host) (w : world) :
  ∃ w', (ProdExec.error_pattern;; mret Continue) h w = (Ok Continue, w')
        ∧ leds_off (pins w')
        ∧ filter (λ e, is_called e = true) (history w')
          = filter (λ e, is_called e = true) (history w).
Proof.
  destruct (prod_error_pattern_off h w) as (w' & E & Hoff & Hc).
  exists w'. by rewrite (bind_Ok _ _ _ _ _ _ E).
Qed.

(** Every press is handled to the end: no exception leaves the handling.
    It ends with the three LEDs off, or, when the clone succeeded, with
    the Done LED alone lit. *)
Lemma prod_pressed_outcome (fs : sysfs) (h : host) (w : world) :
  ∃ f w',
    ProdExec.pressed fs h w = (Ok f, w')
    ∧ (leds_off (pins w')
       ∨ (lit (pins w') LED_DONE = true ∧ lit (pins w') LED_READY = false
          ∧ lit (pins w') LED_CLONING = false)).
Proof.
  unfold ProdExec.pressed.
  destruct (prod_pressed_prelude h w) as (w2 & E2 & _).
  assert (∀ {B} (k : exec B),
            (ProdExec.led_off_all;; ProdExec.led_on LED_READY;; k) h w
            = k h w2) as Hpre.
  { intros B k. unfold mbind, exec_bind in E2 |- *.
    destruct (ProdExec.led_off_all h w) as [[[]|e] w1]; [|done].
    by rewrite E2. }
  rewrite Hpre. unfold try_except. cbv zeta.
  assert (∃ w', (ProdExec.error_pattern;; mret Continue) h w2
                = (Ok Continue, w') ∧ leds_off (pins w')) as Herr.
  { destruct (prod_error_continue h w2) as (w' & E & Hoff & _). eauto. }
  destruct (bool_decide (Prod.detect_devices fs = [])).
  { destruct Herr as (w' & -> & Hoff). eauto. }
  destruct (Prod.identify_source_dest (Prod.detect_devices fs))
    as [[source dest]|].
  2: { destruct Herr as (w' & -> & Hoff). eauto. }
  destruct (negb (Prod.validate_clone source dest)).
  { destruct Herr as (w' & -> & Hoff). eauto. }
  unfold mbind at 1, exec_bind at 1.
  destruct (clone_device_run h w2 source dest)
    as [(o & _ & _ & ->) | (e & w3 & -> & _)].
  - eexists Release, _. split; [done|]. right. cbn [pins].
    rewrite !lit_insert. by compute.
  - destruct (prod_error_pattern_off h w3) as (w' & E & Hoff & _).
    exists Release, w'. rewrite (bind_Ok _ _ _ _ _ _ E). split; [done|].
    by left.
Qed.

Lemma filter_run_or_sync_called (l : list event) :
  filter (λ e, is_run_or_sync e = true) (filter (λ e, is_called e = true) l)
  = filter (λ e, is_run_or_sync e = true) l.
Proof.
  induction l as [|e l IH]; [done|].
  rewrite !filter_cons.
  destruct e as [c o|pin v].
  - rewrite (decide_True (P := is_called (Called c o) = true)) by done.
    rewrite filter_cons. destruct (decide _); by rewrite IH.
  - rewrite (decide_False (P := is_called (Output pin v) = true)) by done.
    by rewrite (decide_False (P := is_run_or_sync (Output pin v) = true)).
Qed.

(** With fewer than two devices in the catalog, a press starts no process
    and calls no [os.sync()]: nothing is copied; and it ends with the
    three LEDs off. *)
Theorem prod_pressed_few_devices (fs : sysfs) (h : host) (w : world) :
  (length (Prod.detect_devices fs) < 2)%nat →
  ∃ f w',
    ProdExec.pressed fs h w = (Ok f, w')
    ∧ leds_off (pins w')
    ∧ filter (λ e, is_run_or_sync e = true) (history w')
      = filter (λ e, is_run_or_sync e = true) (history w).
Proof.
  rewrite <- (filter_run_or_sync_called (history w)).
  setoid_rewrite <- filter_run_or_sync_called at 1.
  intros Hlen. unfold ProdExec.pressed.
  destruct (prod_pressed_prelude h w) as (w2 & E2 & C2).
  assert (∀ {B} (k : exec B),
            (ProdExec.led_off_all;; ProdExec.led_on LED_READY;; k) h w
            = k h w2) as Hpre.
  { intros B k. unfold mbind, exec_bind in E2 |- *.
    destruct (ProdExec.led_off_all h w) as [[[]|e] w1]; [|done].
    by rewrite E2. }
  rewrite Hpre. unfold try_except. cbv zeta.
  destruct (prod_error_continue h w2) as (w' & E & Hoff & C).
  apply identify_source_dest_short in Hlen as [Hnone _]. rewrite Hnone.
  exists Continue, w'.
  destruct (bool_decide (Prod.detect_devices fs = [])); rewrite E;
    (split; [done|]); (split; [done|]); congruence.
Qed.

Lemma prod_pressed_few_devices_witness :
  let w := World ProdExec.setup_gpio [] in
  (length (Prod.detect_devices one_gib) < 2)%nat
  ∧ ∃ f w',
      ProdExec.pressed one_gib host_ok w = (Ok f, w')
      ∧ leds_off (pins w')
      ∧ filter (λ e, is_run_or_sync e = true) (history w')
        = filter (λ e, is_run_or_sync e = true) (history w).
Proof.
  intros w.
  assert (length (Prod.detect_devices one_gib) < 2)%nat as Hlen
    by (vm_compute; lia).
  split; [exact Hlen|].
  exact (prod_pressed_few_devices one_gib host_ok w Hlen).
Defined.

(** ** The main loops, on every host *)

Lemma rising_edges_le_high (prev : bool) (samples : list bool) :
  (rising_edges prev samples ≤ rising_edges HIGH samples)%nat.
Proof.
  destruct samples as [|s l]; [done|]. simpl.
  destruct prev, s; simpl; lia.
Qed.

Lemma active_samples_cons (s : bool) (l : list bool) :
  active_samples (s :: l)
  = ((if s then 0 else 1) + active_samples l)%nat.
Proof.
  unfold active_samples. rewrite filter_cons.
  destruct s.
  - by rewrite decide_False.
  - by rewrite decide_True.
Qed.

Lemma prod_step_any (h : host) (st : loop_state) (o : obs) :
  at_mode st ≠ Stopped →
  let st' := ProdExec.step h st o in
  at_mode st' ≠ Stopped
  ∧ (attempts st' ≤ attempts st + if button o then 0 else 1)%nat
  ∧ (attempts st
     + (if level_of (at_mode st) && negb (button o) then 1 else 0)
     ≤ attempts st')%nat
  ∧ (button o = HIGH → level_of (at_mode st') = HIGH).
Proof.
  intros Hst. unfold ProdExec.step.
  destruct (at_mode st) eqn:Hm; [| |done].
  - destruct (button o) eqn:Hb; simpl.
    + repeat split; [done|lia|lia].
    + match goal with
      | |- context [ProdExec.pressed ?fs ?h ?w] =>
          destruct (prod_pressed_outcome fs h w) as (f & w2 & -> & _)
      end.
      destruct f; simpl; repeat split; first [done | lia].
  - destruct (button o) eqn:Hb; simpl; rewrite ?Hm; simpl.
    + repeat split; [done|lia|lia].
    + repeat split; first [done | lia].
Qed.

Lemma rising_edges_low_le (prev : bool) (samples : list bool) :
  (rising_edges LOW samples ≤ rising_edges prev samples)%nat.
Proof. destruct samples as [|s l]; [done|]. simpl. lia. Qed.

Lemma prod_loop_bounds (h : host) (observations : list obs) :
  ∀ st, at_mode st ≠ Stopped →
    let st' := foldl (ProdExec.step h) st observations in
    at_mode st' ≠ Stopped
    ∧ (attempts st'
       ≤ attempts st + active_samples (button <$> observations))%nat
    ∧ (attempts st
       + rising_edges (level_of (at_mode st)) (button <$> observations)
       ≤ attempts st')%nat.
Proof.
  induction observations as [|o obs IH]; intros st Hst.
  { simpl. repeat split; [done|lia|lia]. }
  rewrite fmap_cons, active_samples_cons. cbn [foldl rising_edges].
  destruct (prod_step_any h st o Hst) as (H1 & H2 & H3 & H4).
  destruct (IH _ H1) as (I1 & I2 & I3).
  split; [done|]. split; [lia|].
  assert (rising_edges (button o) (button <$> obs)
          ≤ rising_edges (level_of (at_mode (ProdExec.step h st o)))
              (button <$> obs))%nat as Hle.
  { destruct (button o) eqn:Hb.
    - by rewrite H4.
    - apply rising_edges_low_le. }
  lia.
Qed.

(** The production loop, on every host and for every run of the button:
    it is never left by an exception, whatever fails in detection or in
    the clone; every rising edge of the button starts an attempt; and no
    attempt starts at a read that finds the button inactive. *)
Theorem prod_main_loop_bounds (h : host) (observations : list obs) :
  at_mode (ProdExec.main_loop h observations) ≠ Stopped
  ∧ (rising_edges HIGH (button <$> observations)
     ≤ attempts (ProdExec.main_loop h observations))%nat
  ∧ (attempts (ProdExec.main_loop h observations)
     ≤ active_samples (button <$> observations))%nat.
Proof.
  unfold ProdExec.main_loop.
  destruct (prod_loop_bounds h observations ProdExec.start)
    as (H1 & H2 & H3); [done|].
  split; [done|]. split; [exact H3|exact H2].
Qed.

(** ** The mock loop starts no process but the size queries *)

Section no_run.
Context (h : host).


Lemma no_run_throw {A} (e : exn) : no_run h (@throw A e).
Proof. by intros w. Qed.













End no_run.



(** ** The file system clone of the mock variant *)

Lemma run_checked_outcome (argv : list string) (h : host) (w : world) :
  run_checked argv h w
  = (match answer h (history w) (Run argv) with
     | Exit rc =>
         if bool_decide (rc = 0) then Ok ()
         else Raise (CalledProcessError rc argv)
     | Fails => Raise (OSError (Run argv))
     end,
     World (pins w)
           (history w ++ [Called (Run argv) (answer h (history w) (Run argv))])).
Proof.
  unfold run_checked, popen_wait, perform, mbind, exec_bind.
  destruct (answer h (history w) (Run argv)) as [rc|]; [|done].
  unfold mret, exec_ret. by destruct (bool_decide (rc = 0)).
Qed.

Lemma popen_wait_outcome (argv : list string) (h : host) (w : world) :
  popen_wait argv h w
  = (match answer h (history w) (Run argv) with
     | Exit rc => Ok rc
     | Fails => Raise (OSError (Run argv))
     end,
     World (pins w)
           (history w ++ [Called (Run argv) (answer h (history w) (Run argv))])).
Proof.
  unfold popen_wait, perform, mbind, exec_bind.
  by destruct (answer h (history w) (Run argv)).
Qed.

(** Inversion of a normal return. *)

Lemma bind_Ok_inv {A B} (m : exec A) (f : A → exec B) h w b w' :
  (m ≫= f) h w = (Ok b, w') →
  ∃ a w1, m h w = (Ok a, w1) ∧ f a h w1 = (Ok b, w').
Proof.
  unfold mbind, exec_bind. destruct (m h w) as [[a|e] w1]; [|done].
  intros E. by exists a, w1.
Qed.

Lemma try_finally_Ok_inv {A} (m : exec A) (fin : exec unit) h w a w' :
  try_finally m fin h w = (Ok a, w') →
  ∃ w1, m h w = (Ok a, w1) ∧ fin h w1 = (Ok (), w').
Proof.
  unfold try_finally. destruct (m h w) as [r w1].
  destruct (fin h w1) as [[[]|e] w2] eqn:Ef; [|done].
  intros [= ? ?]. subst. by exists w1.
Qed.

Lemma run_checked_Ok_inv (argv : list string) h w w' :
  run_checked argv h w = (Ok (), w') →
  w' = World (pins w) (history w ++ [Called (Run argv) (Exit 0)]).
Proof.
  rewrite run_checked_outcome.
  destruct (answer h (history w) (Run argv)) as [rc|]; [|done].
  destruct (decide (rc = 0)) as [->|?].
  - rewrite bool_decide_eq_true_2 by done. by intros [= <-].
  - by rewrite bool_decide_eq_false_2.
Qed.

Lemma os_call_Ok_inv (c : call) h w w' :
  os_call c h w = (Ok (), w') →
  ∃ o, w' = World (pins w) (history w ++ [Called c (Exit o)]).
Proof.
  rewrite os_call_outcome.
  destruct (answer h (history w) c) as [o|]; [|done].
  intros [= <-]. by exists o.
Qed.

Lemma popen_wait_Ok_inv (argv : list string) h w rc w' :
  popen_wait argv h w = (Ok rc, w') →
  w' = World (pins w) (history w ++ [Called (Run argv) (Exit rc)]).
Proof.
  rewrite popen_wait_outcome.
  destruct (answer h (history w) (Run argv)) as [rc'|]; [|done].
  by intros [= <- <-].
Qed.

Lemma clone_filesystem_Ok_events
    (source dest fstype : string) (h : host) (w : world) (w' : world) :
  MockExec.clone_filesystem source dest fstype h w = (Ok (), w') →
  ∃ o1 o2 o3 rc,
    pins w' = pins w
    ∧ history w'
      = (history w
         ++ match MockExec.mkfs_cmd dest fstype with
            | Some cmd => [Called (Run ("sudo" :: cmd)) (Exit 0)]
            | None => []
            end
         ++ [Called (Makedirs MockExec.temp_mount) (Exit o1);
             Called (Run ["sudo"; "mount"; dest; MockExec.temp_mount])
                    (Exit 0)]
         ++ (if ismount h source
             then [Called (Run (MockExec.rsync_cmd (source +:+ ":/")))
                          (Exit rc)]
             else [Called (Makedirs MockExec.source_temp) (Exit o2);
                   Called (Run ["sudo"; "mount"; source;
                                MockExec.source_temp]) (Exit 0);
                   Called (Run (MockExec.rsync_cmd
                                  (MockExec.source_temp +:+ "/"))) (Exit rc);
                   Called (Run ["sudo"; "umount"; MockExec.source_temp])
                          (Exit 0)])
         ++ [Called (Run ["sudo"; "umount"; MockExec.temp_mount]) (Exit 0);
             Called (Rmdir MockExec.temp_mount) (Exit o3)])%list.
Proof.
  unfold MockExec.clone_filesystem. intros E.
  apply bind_Ok_inv in E as ([] & w1 & E1 & E).
  apply bind_Ok_inv in E as ([] & w2 & E2 & E).
  apply bind_Ok_inv in E as ([] & w3 & E3 & E).
  apply try_finally_Ok_inv in E as (w4 & Ebody & Efin).
  apply os_call_Ok_inv in E2 as (o1 & ->).
  apply run_checked_Ok_inv in E3 as ->.
  apply bind_Ok_inv in Efin as ([] & w5 & E5 & E6).
  apply run_checked_Ok_inv in E5 as ->.
  apply os_call_Ok_inv in E6 as (o3 & ->).
  apply bind_Ok_inv in Ebody as (is_mounted & w6 & Eask & Ebody).
  injection Eask as <- <-.
  apply bind_Ok_inv in Ebody as (source_mounted & w7 & Esrc & Ebody).
  apply bind_Ok_inv in Ebody as (rc & w8 & Ersync & Eum).
  apply popen_wait_Ok_inv in Ersync as ->.
  assert (w1 = World (pins w)
                 (history w ++ match MockExec.mkfs_cmd dest fstype with
                               | Some cmd =>
                                   [Called (Run ("sudo" :: cmd)) (Exit 0)]
                               | None => []
                               end)) as ->.
  { destruct (MockExec.mkfs_cmd dest fstype) as [cmd|].
    - by apply run_checked_Ok_inv in E1.
    - injection E1 as <-. rewrite app_nil_r. by destruct w. }
  cbn [pins history] in *.
  destruct (ismount h source); cbn [negb] in Esrc.
  - injection Esrc as <- <-. injection Eum as <-.
    exists o1, 0, o3, rc. cbn [pins history]. split; [done|].
    by rewrite <- !app_assoc.
  - apply bind_Ok_inv in Esrc as ([] & w9 & Emk & Esrc).
    apply bind_Ok_inv in Esrc as ([] & w10 & Emnt & Esrc).
    injection Esrc as <- <-.
    apply os_call_Ok_inv in Emk as (o2 & ->).
    apply run_checked_Ok_inv in Emnt as ->.
    apply run_checked_Ok_inv in Eum as ->.
    exists o1, o2, o3, rc. cbn [pins history]. split; [done|].
    by rewrite <- !app_assoc.
Qed.

Lemma mkfs_cmd_not_mount (dest fstype : string) (cmd : list string)
    (o : outcome) :
  MockExec.mkfs_cmd dest fstype = Some cmd →
  is_mount (Called (Run ("sudo" :: cmd)) o) = false
  ∧ is_umount (Called (Run ("sudo" :: cmd)) o) = false.
Proof.
  unfold MockExec.mkfs_cmd.
  repeat match goal with
         | |- context [String.eqb ?a ?b] => destruct (String.eqb a b)
         end;
    intros [= <-]; try done; by destruct o as [[]|].
Qed.

(** When [clone_filesystem] returns normally, it has done this, in this
    order: formatted the destination (for a type that [mkfs_cmd] knows),
    mounted it, mounted the source unless it was a mount point, run
    [rsync], unmounted the source if it had mounted it, unmounted the
    destination and removed its mount point.  Every command but [rsync]
    exited with status 0.  It has then undone every mount it made: the mounts that
    succeeded are as many as the umounts that succeeded. *)
Theorem clone_filesystem_success_trace
    (source dest fstype : string) (h : host) (w w' : world) :
  MockExec.clone_filesystem source dest fstype h w = (Ok (), w') →
  ∃ o1 o2 o3 rc evs,
    evs
    = (match MockExec.mkfs_cmd dest fstype with
       | Some cmd => [Called (Run ("sudo" :: cmd)) (Exit 0)]
       | None => []
       end
       ++ [Called (Makedirs MockExec.temp_mount) (Exit o1);
           Called (Run ["sudo"; "mount"; dest; MockExec.temp_mount])
                  (Exit 0)]
       ++ (if ismount h source
           then [Called (Run (MockExec.rsync_cmd (source +:+ ":/")))
                        (Exit rc)]
           else [Called (Makedirs MockExec.source_temp) (Exit o2);
                 Called (Run ["sudo"; "mount"; source;
                              MockExec.source_temp]) (Exit 0);
                 Called (Run (MockExec.rsync_cmd
                                (MockExec.source_temp +:+ "/"))) (Exit rc);
                 Called (Run ["sudo"; "umount"; MockExec.source_temp])
                        (Exit 0)])
       ++ [Called (Run ["sudo"; "umount"; MockExec.temp_mount]) (Exit 0);
           Called (Rmdir MockExec.temp_mount) (Exit o3)])%list
    ∧ pins w' = pins w
    ∧ history w' = (history w ++ evs)%list
    ∧ mount_calls evs = umount_calls evs
    ∧ (1 ≤ mount_calls evs ≤ 2)%nat.
Proof.
  intros E.
  destruct (clone_filesystem_Ok_events _ _ _ _ _ _ E)
    as (o1 & o2 & o3 & rc & Hpins & Hhist).
  exists o1, o2, o3, rc. eexists. split; [reflexivity|].
  split; [exact Hpins|]. split; [exact Hhist|].
  unfold mount_calls, umount_calls.
  rewrite !filter_app, !length_app.
  assert (∀ l, l = match MockExec.mkfs_cmd dest fstype with
                   | Some cmd => [Called (Run ("sudo" :: cmd)) (Exit 0)]
                   | None => []
                   end →
               length (filter (λ e, is_mount e = true) l) = 0%nat
               ∧ length (filter (λ e, is_umount e = true) l) = 0%nat)
    as Hmk.
  { intros l ->. destruct (MockExec.mkfs_cmd dest fstype) as [cmd|] eqn:Hc;
      [|done].
    destruct (mkfs_cmd_not_mount dest fstype cmd (Exit 0) Hc) as [H1 H2].
    rewrite !filter_cons, H1, H2. by rewrite !decide_False. }
  destruct (Hmk _ eq_refl) as [-> ->].
  destruct (ismount h source); vm_compute; lia.
Qed.

Lemma clone_filesystem_success_trace_witness :
  let w := World ∅ [] in
  let w' := (MockExec.clone_filesystem "/dev/sdc1" "/dev/sdd1" "ext4"
               host_ok w).2 in
  MockExec.clone_filesystem "/dev/sdc1" "/dev/sdd1" "ext4" host_ok w
  = (Ok (), w')
  ∧ ∃ evs,
      pins w' = pins w
      ∧ history w' = (history w ++ evs)%list
      ∧ mount_calls evs = umount_calls evs
      ∧ mount_calls evs = 2%nat.
Proof.
  intros w w'.
  assert (MockExec.clone_filesystem "/dev/sdc1" "/dev/sdd1" "ext4" host_ok w
          = (Ok (), w')) as E by (vm_compute; reflexivity).
  split; [exact E|].
  destruct (clone_filesystem_success_trace _ _ _ host_ok w w' E)
    as (o1 & o2 & o3 & rc & evs & -> & Hp & Hh & Hb & _).
  eexists. split; [exact Hp|]. split; [exact Hh|]. split; [exact Hb|].
  reflexivity.
Defined.

Lemma try_finally_world {A} (m : exec A) (fin : exec unit) h w :
  (try_finally m fin h w).2 = (fin h (m h w).2).2.
Proof.
  unfold try_finally. destruct (m h w) as [r w1]. cbn [snd].
  by destruct (fin h w1) as [[[]|e] w2].
Qed.

Lemma is_mount_failed (argv : list string) (o : outcome) :
  o ≠ Exit 0 → is_mount (Called (Run argv) o) = false.
Proof.
  intros Ho. destruct o as [[| |]|]; try done;
    by destruct argv as [|? [|? [|? [|? [|? ?]]]]].
Qed.

(** The cleanup of [clone_filesystem]: its events end with the umount of
    the destination, followed at most by the removal of the mount
    point. *)
Lemma clone_filesystem_cleanup (h : host) (w : world) :
  ∃ o post,
    history ((run_checked ["sudo"; "umount"; MockExec.temp_mount];;
              os_call (Rmdir MockExec.temp_mount)) h w).2
    = (history w
       ++ Called (Run ["sudo"; "umount"; MockExec.temp_mount]) o :: post)%list
    ∧ (length post ≤ 1)%nat.
Proof.
  unfold mbind, exec_bind. rewrite run_checked_outcome.
  destruct (answer h (history w) _) as [rc|].
  - destruct (bool_decide (rc = 0)).
    + rewrite os_call_outcome. cbn [snd history pins].
      eexists _, [_]. rewrite <- app_assoc. split; [done|simpl; lia].
    + cbn [snd history]. eexists _, []. split; [done|simpl; lia].
  - cbn [snd history]. eexists _, []. split; [done|simpl; lia].
Qed.

(** On every exit path of [clone_filesystem], on every host: either it
    raises without having mounted anything, or the last thing it does is
    to unmount the destination, followed at most by the removal of the
    mount point.  No path leaves after the mount of the destination
    without passing through its umount. *)
Theorem clone_filesystem_unmounts_destination
    (source dest fstype : string) (h : host) (w : world) :
  let r := MockExec.clone_filesystem source dest fstype h w in
  (∃ e evs,
     r.1 = Raise e ∧ history r.2 = (history w ++ evs)%list
     ∧ mount_calls evs = 0%nat)
  ∨ (∃ pre o post,
       history r.2
       = (pre ++ Called (Run ["sudo"; "umount"; MockExec.temp_mount]) o
              :: post)%list
       ∧ (length post ≤ 1)%nat).
Proof.
  cbv zeta.
  destruct (MockExec.clone_filesystem source dest fstype h w) as [r w']
    eqn:E.
  cbn [fst snd]. revert E. unfold MockExec.clone_filesystem.
  (* the formatting *)
  assert (∃ r1 evs1,
            match MockExec.mkfs_cmd dest fstype with
            | Some cmd => run_checked ("sudo" :: cmd)
            | None => mret ()
            end h w
            = (r1, World (pins w) (history w ++ evs1))
            ∧ mount_calls evs1 = 0%nat) as (r1 & evs1 & E1 & M1).
  { destruct (MockExec.mkfs_cmd dest fstype) as [cmd|] eqn:Hc.
    - rewrite run_checked_outcome. eexists _, [_]. split; [reflexivity|].
      unfold mount_calls. rewrite filter_cons.
      rewrite (proj1 (mkfs_cmd_not_mount dest fstype cmd _ Hc)).
      by rewrite decide_False.
    - exists (Ok ()), []. rewrite app_nil_r. split; [by destruct w|done]. }
  unfold mbind at 1, exec_bind at 1. rewrite E1.
  destruct r1 as [[]|e1].
  2: { intros [= <- <-]. left. by exists e1, evs1. }
  (* the mount point *)
  unfold mbind at 1, exec_bind at 1. rewrite os_call_outcome.
  cbn [pins history].
  destruct (answer h (history w ++ evs1) (Makedirs MockExec.temp_mount))
    as [o1|].
  2: { intros [= <- <-]. left. eexists _, (evs1 ++ [_])%list.
       cbn [history]. rewrite <- app_assoc. split; [done|]. split; [done|].
       unfold mount_calls in *. rewrite filter_app, length_app, M1.
       by rewrite filter_cons, decide_False. }
  (* the mount of the destination *)
  unfold mbind at 1, exec_bind at 1. rewrite run_checked_outcome.
  cbn [pins history].
  set (mnt := ["sudo"; "mount"; dest; MockExec.temp_mount]).
  set (hist := ((history w ++ evs1)
                ++ [Called (Makedirs MockExec.temp_mount) (Exit o1)])%list).
  assert (∀ o, o ≠ Exit 0 →
            mount_calls (evs1 ++ [Called (Makedirs MockExec.temp_mount)
                                         (Exit o1);
                                  Called (Run mnt) o]) = 0%nat) as Hfail.
  { intros o Ho. unfold mount_calls in *.
    rewrite filter_app, length_app, M1, !filter_cons.
    rewrite (is_mount_failed mnt o Ho). by rewrite !decide_False. }
  assert (∀ o, (hist ++ [Called (Run mnt) o]
                = history w ++ evs1
                    ++ [Called (Makedirs MockExec.temp_mount) (Exit o1);
                        Called (Run mnt) o])%list) as Hhist.
  { intros o. unfold hist. by rewrite <- !app_assoc. }
  destruct (answer h hist (Run mnt)) as [rc|].
  2: { intros [= <- <-]. left. eexists _, _. cbn [history].
       split; [done|]. split; [apply Hhist|]. by apply Hfail. }
  destruct (decide (rc = 0)) as [->|Hrc].
  2: { rewrite bool_decide_eq_false_2 by done.
       intros [= <- <-]. left. eexists _, _. cbn [history].
       split; [done|]. split; [apply Hhist|]. apply Hfail. congruence. }
  rewrite bool_decide_eq_true_2 by done.
  (* the copy and the cleanup *)
  intros E. right.
  apply (f_equal snd) in E. cbn [snd] in E. rewrite try_finally_world in E.
  subst w'.
  match goal with
  | |- context [(_ ≫= _) h (?body h ?w0).2] =>
      destruct (clone_filesystem_cleanup h (body h w0).2)
        as (o & post & E & Hpost)
  end.
  eexists _, o, post. split; [exact E|exact Hpost].
Qed.

(** ** More on the two clones *)

Lemma clone_device_nonzero_raises_witness :
  let a := Dev "/dev/sda" "sda" 2972 "Ultra" None in
  let b := Dev "/dev/sdb" "sdb" 93151 "Unknown" None in
  let w := World ProdExec.setup_gpio [] in
  (∀ hist, answer host_all_fail hist (Run (ProdExec.dd_cmd a b)) = Exit 1)
  ∧ 1 ≠ 0
  ∧ (ProdExec.clone_device a b host_all_fail w).1
    = Raise (CalledProcessError 1 (ProdExec.dd_cmd a b)).
Proof.
  intros a b w.
  assert (∀ hist, answer host_all_fail hist (Run (ProdExec.dd_cmd a b))
                  = Exit 1) as Hdd by reflexivity.
  assert (1 ≠ 0) as Hrc by discriminate.
  split; [exact Hdd|]. split; [exact Hrc|].
  exact (clone_device_nonzero_raises host_all_fail w a b 1 Hdd Hrc).
Defined.

(** When the partition table cannot be replicated ([sgdisk] does not exit
    with status 0), [clone_with_rsync] raises at once: [sgdisk] is the only
    call it makes, and no partition is formatted, mounted or copied. *)
Theorem clone_with_rsync_table_failure
    (source dest : string) (h : host) (w : world) :
  answer h (history w) (Run ["sudo"; "sgdisk"; "-R"; dest; source])
    ≠ Exit 0 →
  ∃ e o,
    MockExec.clone_with_rsync false source dest h w
    = (Raise e,
       World (pins w)
             (history w
              ++ [Called (Run ["sudo"; "sgdisk"; "-R"; dest; source]) o]))
    ∧ o ≠ Exit 0.
Proof.
  intros Hsg. unfold MockExec.clone_with_rsync.
  unfold mbind at 1, exec_bind at 1. rewrite run_checked_outcome.
  destruct (answer h (history w) _) as [rc|] eqn:Ha.
  - destruct (decide (rc = 0)) as [->|Hrc]; [done|].
    rewrite bool_decide_eq_false_2 by done. by eexists _, _.
  - by eexists _, _.
Qed.

Lemma clone_with_rsync_table_failure_witness :
  let w := World ∅ [] in
  answer host_all_fail (history w)
         (Run ["sudo"; "sgdisk"; "-R"; "/dev/sdd"; "/dev/sdc"]) ≠ Exit 0
  ∧ ∃ e o,
      MockExec.clone_with_rsync false "/dev/sdc" "/dev/sdd" host_all_fail w
      = (Raise e,
         World (pins w)
               (history w
                ++ [Called (Run ["sudo"; "sgdisk"; "-R"; "/dev/sdd";
                                 "/dev/sdc"]) o]))
      ∧ o ≠ Exit 0.
Proof.
  intros w.
  assert (answer host_all_fail (history w)
            (Run ["sudo"; "sgdisk"; "-R"; "/dev/sdd"; "/dev/sdc"]) ≠ Exit 0)
    as Hsg by discriminate.
  split; [exact Hsg|].
  exact (clone_with_rsync_table_failure "/dev/sdc" "/dev/sdd"
           host_all_fail w Hsg).
Defined.

(** [start_clone] of the mock variant contains every failure of the clone:
    as long as the log file can be written, it returns normally, in test
    mode or not, whatever the processes do. *)
Theorem mock_start_clone_returns
    (test_mode : bool) (source dest : string) (h : host) (w : world) :
  log_writable h →
  ∃ w', MockExec.start_clone test_mode source dest h w = (Ok (), w').
Proof.
  intros Hlog.
  assert (succeeds h (MockExec.start_clone test_mode source dest)
                   (λ _, True)) as Hs.
  { unfold MockExec.start_clone.
    apply succeeds_seq; [apply mock_output_succeeds|].
    apply succeeds_seq; [apply mock_output_succeeds|].
    apply succeeds_try_finally; [|apply mock_led_off_all_succeeds].
    apply succeeds_try_except; [done|].
    intros e. apply succeeds_seq; [by apply append_succeeds|].
    apply mock_error_pattern_succeeds. }
  destruct (Hs w) as ([] & w' & E & _). by exists w'.
Qed.

Lemma mock_start_clone_returns_witness :
  let w := at_world (MockExec.start host_all_fail) in
  log_writable host_all_fail
  ∧ ∃ w', MockExec.start_clone false "/dev/sdc" "/dev/sdd" host_all_fail w
          = (Ok (), w').
Proof.
  intros w.
  assert (log_writable host_all_fail) as Hlog by (intros hist; discriminate).
  split; [exact Hlog|].
  exact (mock_start_clone_returns false "/dev/sdc" "/dev/sdd"
           host_all_fail w Hlog).
Defined.

(** In the production loop the Cloning LED is never on between two reads
    of the button, on every host and for every run: it is lit only while
    [clone_device] runs. *)
Theorem prod_main_loop_cloning_led_off (h : host) (observations : list obs) :
  lit (pins (at_world (ProdExec.main_loop h observations))) LED_CLONING
  = false.
Proof.
  unfold ProdExec.main_loop.
  assert (lit (pins (at_world ProdExec.start)) LED_CLONING = false) as Hst
    by reflexivity.
  revert Hst. generalize ProdExec.start.
  induction observations as [|o obs IH]; intros st Hst; [done|].
  cbn [foldl]. apply IH. unfold ProdExec.step.
  destruct (at_mode st); [|by destruct (button o)|done].
  set (w1 := ((if blink_phase o then ProdExec.blink_ready
               else ProdExec.led_off LED_READY) h (at_world st)).2).
  assert (lit (pins w1) LED_CLONING = false) as H1.
  { unfold w1. destruct (blink_phase o).
    - by rewrite prod_blink_ready_others.
    - unfold ProdExec.led_off. rewrite prod_output_eq. cbn [snd pins].
      by rewrite lit_insert. }
  destruct (button o); [done|].
  destruct (prod_pressed_outcome (seen o) h w1) as (f & w2 & -> & Hl).
  assert (lit (pins w2) LED_CLONING = false) as H2.
  { destruct Hl as [(_ & ? & _)|(_ & _ & ?)]; done. }
  by destruct f.
Qed.

(** ** The LEDs of the mock loop *)

Lemma mock_output_other (pin q : Z) (v : bool) (h : host) (w : world) :
  pin ≠ q → lit (pins (MockExec.output pin v h w).2) q = lit (pins w) q.
Proof.
  intros Hne. unfold MockExec.output.
  destruct (bool_decide _); [|done].
  cbn [snd pins]. by rewrite lit_insert, decide_False.
Qed.

Lemma mock_output_ok (pin : Z) (v : bool) (h : host) (w : world) :
  (MockExec.output pin v h w).1 = Ok ().
Proof. unfold MockExec.output. by destruct (bool_decide _). Qed.

Lemma mock_blink_ready_lit (q : Z) (h : host) (w : world) :
  lit (pins (MockExec.blink_ready h w).2) q
  = if decide (LED_READY = q) then false else lit (pins w) q.
Proof.
  unfold MockExec.blink_ready, MockExec.input.
  rewrite (bind_Ok (mret HIGH) _ h w HIGH w) by reflexivity.
  change (negb HIGH) with LOW. apply mock_output_low_lit.
Qed.

Lemma mock_flash_once (h : host) (w : world) :
  ∃ w2, (MockExec.output LED_READY HIGH;; MockExec.output LED_READY LOW) h w
        = (Ok (), w2)
        ∧ lit (pins w2) LED_READY = false
        ∧ lit (pins w2) LED_CLONING = lit (pins w) LED_CLONING
        ∧ lit (pins w2) LED_DONE = lit (pins w) LED_DONE.
Proof.
  pose proof (mock_output_ok LED_READY HIGH h w) as O1.
  pose proof (mock_output_other LED_READY LED_CLONING HIGH h w) as C1.
  pose proof (mock_output_other LED_READY LED_DONE HIGH h w) as D1.
  destruct (MockExec.output LED_READY HIGH h w) as [r1 w1] eqn:E1.
  cbn [fst snd] in O1, C1, D1. subst r1.
  pose proof (mock_output_ok LED_READY LOW h w1) as O2.
  pose proof (mock_output_low_lit LED_READY LED_READY h w1) as L2.
  pose proof (mock_output_other LED_READY LED_CLONING LOW h w1) as C2.
  pose proof (mock_output_other LED_READY LED_DONE LOW h w1) as D2.
  destruct (MockExec.output LED_READY LOW h w1) as [r2 w2] eqn:E2.
  cbn [fst snd] in O2, L2, C2, D2. subst r2.
  exists w2. rewrite (bind_Ok _ _ _ _ _ _ E1). split; [done|].
  rewrite L2, C2, D2, C1, D1 by done. by rewrite decide_True.
Qed.

Lemma mock_flash_leds (n : nat) (h : host) (w : world) :
  let r := repeat_exec n (MockExec.output LED_READY HIGH;;
                          MockExec.output LED_READY LOW) h w in
  r.1 = Ok ()
  ∧ lit (pins r.2) LED_READY
    = (if n is O then lit (pins w) LED_READY else false)
  ∧ lit (pins r.2) LED_CLONING = lit (pins w) LED_CLONING
  ∧ lit (pins r.2) LED_DONE = lit (pins w) LED_DONE.
Proof.
  cbv zeta. revert w. induction n as [|n IH]; intros w; [done|].
  cbn [repeat_exec].
  destruct (mock_flash_once h w) as (w2 & E & Hr & Hc & Hd).
  rewrite (bind_Ok _ _ _ _ _ _ E).
  destruct (IH w2) as (I1 & I2 & I3 & I4).
  split; [done|]. rewrite I2, I3, I4, Hc, Hd.
  split; [by destruct n|done].
Qed.

Lemma mock_error_pattern_leds (h : host) (w : world) :
  lit (pins w) LED_CLONING = false → lit (pins w) LED_DONE = false →
  (MockExec.error_pattern h w).1 = Ok ()
  ∧ leds_off (pins (MockExec.error_pattern h w).2).
Proof.
  intros Hc Hd. unfold MockExec.error_pattern.
  destruct (mock_flash_leds 5 h w) as (H1 & H2 & H3 & H4).
  split; [done|]. unfold leds_off. by rewrite H2, H3, H4.
Qed.

Lemma mock_try_finally_leds_off {A} (m : exec A) (h : host) (w : world) :
  leds_off (pins (try_finally m MockExec.led_off_all h w).2).
Proof.
  rewrite try_finally_world.
  destruct (mock_led_off_all_off h (m h w).2) as (w' & E & Hoff & _).
  by rewrite E.
Qed.

Lemma mock_pressed_leds_off (test_mode : bool) (h : host) (w : world) :
  leds_off (pins (MockExec.pressed test_mode h w).2).
Proof.
  unfold MockExec.pressed.
  destruct (mock_led_off_all_off h w) as (w1 & E1 & (_ & Hc1 & Hd1) & _).
  rewrite (bind_Ok _ _ _ _ _ _ E1).
  pose proof (mock_output_ok LED_READY HIGH h w1) as O2.
  pose proof (mock_output_other LED_READY LED_CLONING HIGH h w1) as C2.
  pose proof (mock_output_other LED_READY LED_DONE HIGH h w1) as D2.
  destruct (MockExec.output LED_READY HIGH h w1) as [r2 w2] eqn:E2.
  cbn [fst snd] in O2, C2, D2. subst r2.
  rewrite (bind_Ok _ _ _ _ _ _ E2).
  assert (lit (pins w2) LED_CLONING = false) as Hc2 by (rewrite C2; done).
  assert (lit (pins w2) LED_DONE = false) as Hd2 by (rewrite D2; done).
  pose proof (mock_error_pattern_leds h w2 Hc2 Hd2) as [_ Herr].
  destruct test_mode; [|exact Herr].
  cbv zeta.
  change (2 <=? length (MockExec.detect_devices true))%nat with true.
  cbv iota. unfold mbind at 1, exec_bind at 1, ask at 1.
  destruct (Mock.validate_clone _ _ _) as [[] msg]; [|exact Herr].
  unfold MockExec.start_clone.
  destruct (MockExec.output LED_CLONING HIGH h w2) as [r3 w3] eqn:E3.
  pose proof (mock_output_ok LED_CLONING HIGH h w2) as O3.
  rewrite E3 in O3. cbn [fst] in O3. subst r3.
  rewrite (bind_Ok _ _ _ _ _ _ E3).
  destruct (MockExec.output LED_READY LOW h w3) as [r4 w4] eqn:E4.
  pose proof (mock_output_ok LED_READY LOW h w3) as O4.
  rewrite E4 in O4. cbn [fst] in O4. subst r4.
  rewrite (bind_Ok _ _ _ _ _ _ E4).
  apply mock_try_finally_leds_off.
Qed.

(** In the mock loop the three LEDs are off between any two reads of the
    button, on every host, in test mode or not, and also when an
    exception has left the loop: the Ready LED never stays lit and the
    Done LED is cleared before [start_clone] returns. *)
Theorem mock_main_loop_leds_off
    (test_mode : bool) (h : host) (observations : list obs) :
  leds_off (pins (at_world (MockExec.main_loop test_mode h observations))).
Proof.
  unfold MockExec.main_loop.
  assert (leds_off (pins (at_world (MockExec.start h)))) as Hst.
  { unfold MockExec.start, MockExec.init. cbn [at_world].
    destruct (mock_led_off_all_off h (World MockExec.setup []))
      as (w1 & E1 & (_ & Hc & Hd) & _).
    rewrite (bind_Ok _ _ _ _ _ _ E1).
    unfold leds_off. rewrite !mock_blink_ready_lit.
    rewrite decide_True, !decide_False by done. done. }
  revert Hst. generalize (MockExec.start h).
  induction observations as [|o obs IH]; intros st Hst; [done|].
  cbn [foldl]. apply IH. unfold MockExec.step.
  destruct (at_mode st); [|by destruct (button o)|done].
  set (w1 := ((if blink_phase o then MockExec.blink_ready
               else MockExec.output LED_READY LOW) h (at_world st)).2).
  destruct (button o).
  - cbn [at_world]. destruct Hst as (Hr & Hc & Hd). unfold w1, leds_off.
    destruct (blink_phase o).
    + rewrite !mock_blink_ready_lit.
      rewrite decide_True, !decide_False by done. done.
    + rewrite !mock_output_low_lit.
      rewrite decide_True, !decide_False by done. done.
  - pose proof (mock_pressed_leds_off test_mode h w1) as Hp.
    by destruct (MockExec.pressed test_mode h w1) as [[[]|e] w2].
Qed.

Lemma detect_devices_names_NoDup_witness :
  NoDup (be_name <$> sys_block two_disks)
  ∧ NoDup (name <$> Prod.detect_devices two_disks).
Proof.
  assert (NoDup (be_name <$> sys_block two_disks)) as Hnd
    by (apply (bool_decide_unpack _); vm_compute; exact I).
  split; [exact Hnd|].
  exact (detect_devices_names_NoDup two_disks Hnd).
Defined.

(** ** The partitions *)

Lemma last_char_snoc (p : string) (c : Ascii.ascii) :
  last_char (p +:+ String c "") = String c "".
Proof.
  unfold last_char.
  assert (∀ q, String.length (q +:+ String c "") = S (String.length q))
    as Hlen.
  { induction q as [|a q IH]; [done|]. simpl. by rewrite IH. }
  rewrite Hlen. simpl. rewrite Nat.sub_0_r.
  induction p as [|a p IH]; [done|]. exact IH.
Qed.

(** The destination partition of a source partition is named by the last
    character of the source partition alone: the partition [p] followed by
    [c] is cloned onto the destination device followed by [c].  Two source
    partitions whose numbers end in the same digit, such as 1 and 11, are
    cloned onto the same destination partition. *)
Theorem clone_part_targets_last_character
    (dest p : string) (c : Ascii.ascii) (h : host) (w : world) :
  let part := p +:+ String c "" in
  let fstype := match blkid h ("/dev/" +:+ part) with
                | Some s => lower s
                | None => "unknown"
                end in
  MockExec.clone_part dest part h w
  = (if MockExec.filesystem_aware fstype
     then MockExec.clone_filesystem
            ("/dev/" +:+ part) (dest +:+ String c "") fstype
     else MockExec.raw_clone ("/dev/" +:+ part) (dest +:+ String c "")) h w.
Proof.
  intros part fstype. unfold MockExec.clone_part. cbv zeta.
  subst part. rewrite last_char_snoc.
  assert (MockExec.get_filesystem_type ("/dev/" +:+ p +:+ String c "") h w
          = (Ok fstype, w)) as Hfs by reflexivity.
  by rewrite (bind_Ok _ _ _ _ _ _ Hfs).
Qed.
